(** * TextPress: the database manager extension and the TPXA export writer

    A shallow embedding of [textpress/database.py] (the mapper extension
    [ManagerExtension] with its [DatabaseManager] objects) and of
    [textpress/tpxa.py] (the TextPress eXtended Atom [Writer]), followed by
    the properties of both that the specification states.

    Python objects that are shared and mutated (manager objects held by
    several class attributes, sessions, the element-tree nodes held by both
    [_dependencies] and [users]) live in explicit stores and are named by
    references.  Exceptions are results of type [PyExc + A]. *)

From Stdlib Require Import ZArith String Ascii List.
From Stdlib Require Import Hexadecimal HexadecimalNat HexadecimalString.
From stdpp Require Import gmap strings list fin_maps sorting pretty.

Open Scope string_scope.
Open Scope list_scope.

(** ** Python values and exceptions shared by both modules *)

(** The Python values that travel through keyword arguments, class
    attributes and pickled payloads.  [PyRef] is a reference to an object
    kept in a store (a session). *)
#[warnings="-register-all"]
Inductive PyObj : Type :=
  | PyNone
  | PyBool (b : bool)
  | PyInt (z : Z)
  | PyStr (s : string)
  | PyRef (addr : nat)
  | PyList (items : list PyObj)
  | PyDict (items : list (string * PyObj)).

(** Python truth value testing. *)
Definition truthy (v : PyObj) : bool :=
  match v with
  | PyNone => false
  | PyBool b => b
  | PyInt z => negb (z =? 0)%Z
  | PyStr s => negb (String.eqb s "")
  | PyRef _ => true
  | PyList items => match items with [] => false | _ => true end
  | PyDict items => match items with [] => false | _ => true end
  end.

Inductive PyExc : Type :=
  | RuntimeError (msg : string)
  | AttributeError (msg : string)
  | KeyError (key : string)
  | InvalidRequestError (msg : string).

(** The double quote character, as a string. *)
Definition dq : string := String "034"%char EmptyString.

(** [d.pop(key, default)]: the value and the dictionary without the key. *)
Definition dict_pop {V : Type} (key : string) (dflt : V) (d : gmap string V)
  : V * gmap string V :=
  (default dflt (d !! key), delete key d).

(** * textpress.database *)

Module Database.

(** A [DatabaseManager] object: [model] is [None] until [bind] is called;
    afterwards it names the class the manager is bound to. *)
Record DatabaseManager : Type := { model : option string }.

(** A value found in a class dictionary.  [isinstance(value,
    DatabaseManager)] holds exactly for [AttrManager]; the manager object
    itself lives in the heap, so two attributes may hold the same manager.
    [AttrManagers] is the list assigned to [_tp_managers]. *)
Inductive ClassAttr : Type :=
  | AttrManager (ref : nat)
  | AttrManagers (refs : list nat)
  | AttrOther (v : PyObj).

(** A class as [instrument_class] sees it: its own [__dict__] and the names
    of the attributes it inherits from its bases ([hasattr] sees both). *)
Record PyClass : Type := {
  cls_name : string;
  cls_dict : gmap string ClassAttr;
  cls_inherited : gset string
}.

(** The class being instrumented together with the heap of manager
    objects. *)
Record Models : Type := {
  class_ : PyClass;
  managers_heap : gmap nat DatabaseManager
}.

Definition is_manager (a : ClassAttr) : option nat :=
  match a with AttrManager r => Some r | _ => None end.

(** The loop [for key, value in class_.__dict__.iteritems()] collecting the
    values that are [DatabaseManager] instances. *)
Definition own_managers (c : PyClass) : list nat :=
  omap (fun kv => is_manager (snd kv)) (map_to_list (cls_dict c)).

Definition hasattr (c : PyClass) (name : string) : bool :=
  bool_decide (is_Some (cls_dict c !! name))
  || bool_decide (name ∈ cls_inherited c).

Definition setattr (c : PyClass) (name : string) (a : ClassAttr) : PyClass :=
  {| cls_name := cls_name c;
     cls_dict := <[name := a]> (cls_dict c);
     cls_inherited := cls_inherited c |}.

Definition collision_error : PyExc :=
  RuntimeError ("The model %r already has an attribute called " +:+ dq +:+ "objects"
                +:+ dq +:+ ".  You have to either rename this attribute or defined a mapper yourself with a different name").

Definition already_bound_error : PyExc :=
  RuntimeError "manager already bound to model".

(** [DatabaseManager.bind]: raises when the manager is bound already.  A
    reference that names no object of the heap has no counterpart in a run
    of the program; it is answered with an error of its own. *)
Definition bind (ref : nat) (cls : string) (h : gmap nat DatabaseManager)
  : gmap nat DatabaseManager * (PyExc + unit) :=
  match h !! ref with
  | Some {| model := None |} => (<[ref := {| model := Some cls |}]> h, inr tt)
  | Some {| model := Some _ |} => (h, inl already_bound_error)
  | None => (h, inl (AttributeError "dangling manager reference"))
  end.

(** The loop [for manager in managers: manager.bind(class_)]; it stops at
    the first manager that raises, the earlier ones stay bound. *)
Fixpoint bind_all (refs : list nat) (cls : string) (h : gmap nat DatabaseManager)
  : gmap nat DatabaseManager * (PyExc + unit) :=
  match refs with
  | [] => (h, inr tt)
  | r :: rest =>
      match bind r cls h with
      | (h', inr _) => bind_all rest cls h'
      | (h', inl e) => (h', inl e)
      end
  end.

(** [ManagerExtension.instrument_class]. *)
Definition instrument_class (w : Models) : Models * (PyExc + unit) :=
  let c := class_ w in
  let found := own_managers c in
  match found with
  | [] =>
      if hasattr c "objects" then (w, inl collision_error)
      else
        let mgr := fresh (dom (managers_heap w)) in
        let h := <[mgr := {| model := None |}]> (managers_heap w) in
        let c1 := setattr c "objects" (AttrManager mgr) in
        let c2 := setattr c1 "_tp_managers" (AttrManagers [mgr]) in
        let '(h', r) := bind_all [mgr] (cls_name c) h in
        ({| class_ := c2; managers_heap := h' |}, r)
  | _ :: _ =>
      let c2 := setattr c "_tp_managers" (AttrManagers found) in
      let '(h', r) := bind_all found (cls_name c) (managers_heap w) in
      ({| class_ := c2; managers_heap := h' |}, r)
  end.

(** *** Sessions *)

(** A SQLAlchemy session, by the part the extension relies on: the
    instances registered as new, each with its entity name. *)
Record Session : Type := { sess_new : list (nat * PyObj) }.

(** The sessions of the process.  [registry] is the session that
    [session.registry()] returns for the current scope; [attached] is the
    [_sa_session_id] of every instance that belongs to a session.  A
    session that has never been used is absent from [sessions] and reads
    as an empty one. *)
Record Orm : Type := {
  sessions : gmap nat Session;
  registry : nat;
  attached : gmap nat nat
}.

Definition pending_of (w : Orm) (sid : nat) : list (nat * PyObj) :=
  sess_new (default {| sess_new := [] |} (sessions w !! sid)).

Inductive ExtResult : Type := EXT_CONTINUE | EXT_STOP.

(** [ManagerExtension.get_session]. *)
Definition get_session (w : Orm) : PyObj := PyRef (registry w).

(** [Session._save_impl]: attach the instance to the session and register
    it as new; an instance that belongs to another session is refused. *)
Definition _save_impl (sid instance : nat) (entity : PyObj) (w : Orm)
  : Orm * (PyExc + unit) :=
  match attached w !! instance with
  | Some old =>
      if decide (old = sid) then (w, inr tt)
      else (w, inl (InvalidRequestError "Object is already attached to another session"))
  | None =>
      ({| sessions := <[sid := {| sess_new := pending_of w sid ++ [(instance, entity)] |}]> (sessions w);
          registry := registry w;
          attached := <[instance := sid]> (attached w) |}, inr tt)
  end.

(** [Session.expunge]. *)
Definition expunge (sid instance : nat) (w : Orm) : Orm :=
  {| sessions := <[sid := {| sess_new := filter (fun p => fst p ≠ instance) (pending_of w sid) |}]> (sessions w);
     registry := registry w;
     attached := delete instance (attached w) |}.

(** [orm.object_session]. *)
Definition object_session (instance : nat) (w : Orm) : option nat :=
  attached w !! instance.

(** [ManagerExtension.init_instance]; the keyword dictionary is returned
    too, since the [pop] calls change it for the caller. *)
Definition init_instance (instance : nat) (kwargs : gmap string PyObj) (w : Orm)
  : Orm * gmap string PyObj * (PyExc + ExtResult) :=
  let '(session, kwargs) := dict_pop "_sa_session" PyNone kwargs in
  let session := match session with PyNone => get_session w | s => s end in
  let '(no_save, kwargs) := dict_pop "_tp_no_save" (PyBool false) kwargs in
  if negb (truthy no_save) then
    let '(entity, kwargs) := dict_pop "_sa_entity_name" PyNone kwargs in
    match session with
    | PyRef sid =>
        match _save_impl sid instance entity w with
        | (w', inr _) => (w', kwargs, inr EXT_CONTINUE)
        | (w', inl e) => (w', kwargs, inl e)
        end
    | _ => (w, kwargs, inl (AttributeError "object has no attribute '_save_impl'"))
    end
  else (w, kwargs, inr EXT_CONTINUE).

(** [ManagerExtension.init_failed]. *)
Definition init_failed (instance : nat) (w : Orm) : Orm * (PyExc + ExtResult) :=
  match object_session instance w with
  | Some sid => (expunge sid instance w, inr EXT_CONTINUE)
  | None => (w, inl (AttributeError "'NoneType' object has no attribute 'expunge'"))
  end.

(** The managers the class dictionary refers to are objects of the heap. *)
Definition managers_allocated (w : Models) : Prop :=
  Forall (fun r => is_Some (managers_heap w !! r)) (own_managers (class_ w)).

(** *** Concrete models and sessions *)

(** A class whose two attributes hold one and the same manager, as after
    [objects = by_key = DatabaseManager()]. *)
Definition shared_manager_model : Models :=
  {| class_ := {| cls_name := "Page";
                  cls_dict := {[ "objects" := AttrManager 0;
                                 "by_key" := AttrManager 0 ]};
                  cls_inherited := ∅ |};
     managers_heap := {[ 0 := {| model := None |} ]} |}.

(** A class with one manager of its own under another name. *)
Definition own_manager_model : Models :=
  {| class_ := {| cls_name := "User";
                  cls_dict := {[ "authors" := AttrManager 3;
                                 "username" := AttrOther PyNone ]};
                  cls_inherited := ∅ |};
     managers_heap := {[ 3 := {| model := None |} ]} |}.

(** A process with no session in use yet; the scope's session is 1. *)
Definition idle_orm : Orm :=
  {| sessions := ∅; registry := 1; attached := ∅ |}.

(** An instance is new to the sessions when it belongs to none of them. *)
Definition new_instance (w : Orm) (instance : nat) : Prop :=
  attached w !! instance = None
  /\ forall sid, instance ∉ (pending_of w sid).*1.

(** The session [init_instance] saves into under the given keywords, when
    the [_sa_session] keyword is usable. *)
Definition target_session (kwargs : gmap string PyObj) (w : Orm) : option nat :=
  match kwargs !! "_sa_session" with
  | None | Some PyNone => Some (registry w)
  | Some (PyRef sid) => Some sid
  | Some _ => None
  end.

(** *** The [db] module *)

(** A library module as the loop over [sqlalchemy] and [orm] reads it: its
    [__dict__] and its [__all__]. *)
Record PyModule (V : Type) : Type := {
  mod_dict : gmap string V;
  mod_all : list string
}.
Arguments mod_dict {V} _.
Arguments mod_all {V} _.

(** What a name of the [db] module is bound to: an object taken from a
    library module, an object this module defines itself ([mapper],
    [get_engine], [session], [DatabaseManager]), or the attribute of that
    name of the scoped [session]. *)
Inductive DbValue (V : Type) : Type :=
  | FromLibrary (v : V)
  | Own (name : string)
  | SessionAttr (name : string).
Arguments FromLibrary {V} _.
Arguments Own {V} _.
Arguments SessionAttr {V} _.

(** The [db] module under construction: what the statements of the module
    have bound in it so far (the attributes a new module object has by
    itself are not listed), and the set [public_names]. *)
Record DbState (V : Type) : Type := {
  db_namespace : gmap string (DbValue V);
  public_names : gset string
}.
Arguments db_namespace {V} _.
Arguments public_names {V} _.

(** The names bound from the session. *)
Definition session_names : list string :=
  [ "delete"; "save"; "flush"; "execute"; "begin";
    "commit"; "rollback"; "clear"; "refresh"; "expire" ].

(** The inner loop [for key, value in mod.__dict__.iteritems()]. *)
Definition import_public {V : Type} (m : PyModule V) (st : DbState V) : DbState V :=
  map_fold (fun key value st =>
              if bool_decide (key ∈ mod_all m)
              then {| db_namespace := <[key := FromLibrary value]> (db_namespace st);
                      public_names := {[ key ]} ∪ public_names st |}
              else st)
           st (mod_dict m).

Definition set_own {V : Type} (name : string) (st : DbState V) : DbState V :=
  {| db_namespace := <[name := Own name]> (db_namespace st);
     public_names := public_names st |}.

(** One round of the loop over the session names. *)
Definition import_session_name {V : Type} (st : DbState V) (name : string) : DbState V :=
  {| db_namespace := <[name := SessionAttr name]> (db_namespace st);
     public_names := {[ name ]} ∪ public_names st |}.

(** Python's order on byte strings. *)
Definition string_le (a b : string) : Prop := String.leb a b = true.

#[global] Instance string_le_dec (a b : string) : Decision (string_le a b) :=
  decide (String.leb a b = true).

(** The statements of the module that fill [db], from the creation of
    [public_names] to the last assignment before [db.__all__]. *)
Definition fill_db {V : Type} (sqlalchemy orm : PyModule V) : DbState V :=
  let st := {| db_namespace := ∅;
               public_names := list_to_set
                 [ "mapper"; "get_engine"; "session"; "DatabaseManager" ] |} in
  let st := foldl (fun st m => import_public m st) st [sqlalchemy; orm] in
  let st := set_own "mapper" st in
  let st := set_own "get_engine" st in
  let st := foldl import_session_name st session_names in
  let st := set_own "session" st in
  set_own "DatabaseManager" st.

(** [db.__all__ = sorted(public_names)]. *)
Definition db_all {V : Type} (sqlalchemy orm : PyModule V) : list string :=
  merge_sort string_le (elements (public_names (fill_db sqlalchemy orm))).

(** The public names of a library module that it really binds. *)
Definition exported {V : Type} (m : PyModule V) : gmap string V :=
  filter (fun kv => fst kv ∈ mod_all m) (mod_dict m).

(** A library with a [delete] and a private name, for concrete runs. *)
Definition sample_sqlalchemy : PyModule nat :=
  {| mod_dict := {[ "delete" := 1; "select" := 2; "_private" := 3 ]};
     mod_all := [ "delete"; "select" ] |}.

Definition sample_orm : PyModule nat :=
  {| mod_dict := {[ "mapper" := 10; "relation" := 11 ]};
     mod_all := [ "mapper"; "relation" ] |}.

End Database.

(** * textpress.tpxa *)

Module Tpxa.

Definition ATOM_NS : string := "http://www.w3.org/2005/Atom".
Definition TEXTPRESS_NS : string := "http://textpress.pocoo.org/".

(** ** The element tree *)

(** An [Element] of the element-tree library: tag, attribute dictionary,
    text ([None] when never assigned) and the child elements in document
    order. *)
#[warnings="-register-all"]
Inductive Element : Type :=
  mkElement {
    tag : string;
    attrib : gmap string string;
    text : option string;
    children : list Element
  }.

(** [etree.SubElement(parent, ...)] appends the new element to [parent]. *)
Definition SubElement (parent child : Element) : Element :=
  {| tag := tag parent; attrib := attrib parent; text := text parent;
     children := children parent ++ [child] |}.

(** [element.attrib[key] = value]. *)
Definition set_attrib (key value : string) (e : Element) : Element :=
  {| tag := tag e; attrib := <[key := value]> (attrib e); text := text e;
     children := children e |}.

(** [_ElementHelper.__getattr__]: the qualified name ['{%s}%s' % (ns, tag)]. *)
Definition qname (ns name : string) : string := "{" +:+ ns +:+ "}" +:+ name.

(** [_ElementHelper.__call__] without its [parent] argument: the element it
    creates.  The keyword arguments other than [text] update the attribute
    dictionary; [text] is assigned only when it is not [None]. *)
Definition helper (ns name : string) (attrib extra : gmap string string)
    (text : option string) : Element :=
  {| tag := qname ns name; attrib := extra ∪ attrib; text := text;
     children := [] |}.

Definition atom : string -> gmap string string -> gmap string string ->
                  option string -> Element := helper ATOM_NS.
Definition tp : string -> gmap string string -> gmap string string ->
                option string -> Element := helper TEXTPRESS_NS.

(** [self.tp.dependency], the attribute that carries a dependency id. *)
Definition tp_dependency : string := qname TEXTPRESS_NS "dependency".

(** ** The blog data the writer reads *)

(** A parsed text fragment; [render] is the result of its [render()]. *)
Record Fragment : Type := { render : string }.

(** A row of the [users] table as the [User] model presents it.  The
    columns handed to [text=] unchanged may be [None]. *)
Record User : Type := {
  user_id : Z;
  username : option string;
  role : Z;
  pw_hash : string;
  _display_name : option string;
  display_name : option string;
  first_name : option string;
  last_name : option string;
  description : option string;
  user_email : option string
}.

Record Comment : Type := {
  comment_id : Z;
  c_author : option string;
  c_email : option string;
  c_www : option string;
  c_pub_date : Z;
  c_blocked : bool;
  c_is_pingback : bool;
  c_blocked_msg : option string;
  c_parent_id : option Z;
  c_raw_body : PyObj;
  c_parser_data : PyObj
}.

(** A row of the [posts] table as the [Post] model presents it.  Dates are
    seconds on the UTC time line.  [intro] is [None] for every false
    value. *)
Record Post : Type := {
  post_id : Z;
  title : option string;
  uid : option string;
  slug : option string;
  last_update : Z;
  pub_date : Z;
  author_id : Z;
  comments_enabled : bool;
  pings_enabled : bool;
  status : Z;
  body : Fragment;
  intro : option Fragment;
  extra : PyObj;
  raw_body : PyObj;
  raw_intro : PyObj;
  parser_data : PyObj;
  comments : list Comment
}.

Record Db : Type := { db_users : list User; db_posts : list Post }.

(** Modelled from the spec: the [Post.author] relation of the model module,
    which is not part of the sources at hand; the spec has it as the
    post-to-author foreign key, so it is the user row whose [user_id] is the
    post's [author_id], and [None] when there is no such row. *)
Definition author (db : Db) (post : Post) : option User :=
  find (fun u => bool_decide (user_id u = author_id post)) (db_users db).

(** [User.objects.all()]. *)
Definition all_users (db : Db) : list User := db_users db.

(** [Post.objects.order_by(Post.last_update.desc())]: the rows of the
    table, latest update first. *)
Definition newer_or_equal (p q : Post) : Prop := (last_update q <= last_update p)%Z.

#[global] Instance newer_or_equal_dec (p q : Post) : Decision (newer_or_equal p q) :=
  Z_le_dec (last_update q) (last_update p).

Definition order_by_last_update_desc (db : Db) : list Post :=
  merge_sort newer_or_equal (db_posts db).

(** The blog configuration values read through [app.cfg]. *)
Record App : Type := {
  blog_title : string;
  blog_tagline : string;
  blog_url : string
}.

(** What the writer takes from the rest of the application and from the
    libraries: the helpers of [textpress.utils], [url_for], the version
    string, [cPickle.dumps] at protocol 2, the [base64] codec and the
    element tree's [_write] under a prefix map. *)
Class Host : Type := {
  textpress_version : string;
  escape : string -> string;
  format_iso8601 : Z -> string;
  build_tag_uri : App -> Z -> string -> string -> string;
  url_for : Post -> string;
  dumps : PyObj -> string;
  encode_base64 : string -> string;
  etree_write : gmap string string -> Element -> string
}.

(** ** The preamble *)

(** The constant head of [XML_PREAMBLE]: the XML declaration and the
    comment, up to the line break before the feed element. *)
Definition XML_PREAMBLE_HEAD : string :=
  "<?xml version=" +:+ dq +:+ "1.0" +:+ dq +:+ " encoding=" +:+ dq +:+ "utf-8" +:+ dq +:+ "?>
<!--

    This is a TextPress eXtended Atom file.  It is a superset of the Atom
    specification so every Atom-enabled application should be able to use at
    least the Atom subset of the exported data.  You can use this file to
    import your blog data in other blog software.

    Developer Notice
    ----------------

    Because we saw horrible export formats (wordpress' wxr *cough*" +:+ ") we want
    to avoid problems with this file right away.  If you are an application
    developer that wants to use this file to import blog posts you have to
    to the following:

    -   parse the file with a proper XML parser.  And proper means shout
        on syntax and encoding errors.
    -   handle namespaces!  The prefixes might and will change, so use the
        goddamn full qualified names with the namespaces when parsing.

    User Notice
    -----------

    This file contains a dump of your blog but probably exluding some details
    if plugins did not provide ways to export the information.  It's not
    intended as blog backup nor as preferred solution to migrate from one
    machine to another.  The main purpose of this file is being a portable
    file that can be read by other blog software if you want to switch to
    something else.

-->
".

(** The dictionary [XML_PREAMBLE] is formatted with. *)
Record PreambleArgs : Type := {
  arg_version : string;
  arg_title : string;
  arg_subtitle : string;
  arg_atom_ns : string;
  arg_textpress_ns : string;
  arg_id : string;
  arg_blog_url : string;
  arg_updated : string
}.

(** [XML_PREAMBLE % args]. *)
Definition XML_PREAMBLE (args : PreambleArgs) : string :=
  XML_PREAMBLE_HEAD
  +:+ "<a:feed xmlns:a=" +:+ dq +:+ arg_atom_ns args +:+ dq
  +:+ " xmlns:tp=" +:+ dq +:+ arg_textpress_ns args +:+ dq +:+ ">"
  +:+ "<a:title>" +:+ arg_title args +:+ "</a:title>"
  +:+ "<a:subtitle>" +:+ arg_subtitle args +:+ "</a:subtitle>"
  +:+ "<a:id>" +:+ arg_id args +:+ "</a:id>"
  +:+ "<a:generator a:uri=" +:+ dq +:+ "http://textpress.pocoo.org/" +:+ dq
  +:+ " a:version=" +:+ dq +:+ arg_version args +:+ dq
  +:+ ">TextPress TPXA Export</a:generator>"
  +:+ "<a:link href=" +:+ dq +:+ arg_blog_url args +:+ dq +:+ "/>"
  +:+ "<a:updated>" +:+ arg_updated args +:+ "</a:updated>".

Definition XML_EPILOG : string := "</a:feed>".

(** ** The writer *)

(** A participant of the export, supplied by a plugin, by its class name
    and by what it does to the nodes.  The base class defines
    [before_dump], [process_post] and [process_user]; [_generate] calls
    [setup], which only a subclass that defines it has.  The participants
    covered are those whose [setup] returns without touching the writer and
    whose two processing hooks only change the node they are handed; what
    the code of a plugin may do beyond that (to the writer it holds, or by
    raising) has no counterpart here, and the properties of runs below are
    about writers without participants, or about what a run does before
    the first method of a participant is called. *)
Record Participant : Type := {
  participant_class : string;
  has_setup : bool;
  process_post : Element -> Element;
  process_user : Element -> Element
}.

(** The [Writer] object.  The element nodes that [_dependencies] and
    [users] both hold are kept in [nodes] and named by their position. *)
Record Writer : Type := {
  app : App;
  _dependencies : gmap string nat;
  users : gmap Z nat;
  nodes : list Element;
  participants : list Participant
}.

(** [Writer.__init__], given the participants the event returned. *)
Definition Writer_init (a : App) (ps : list Participant) : Writer :=
  {| app := a; _dependencies := ∅; users := ∅; nodes := []; participants := ps |}.

Definition with_nodes (w : Writer) (ns : list Element) : Writer :=
  {| app := app w; _dependencies := _dependencies w; users := users w;
     nodes := ns; participants := participants w |}.

(** A change made to the node behind a reference. *)
Definition alter_node (f : Element -> Element) (ref : nat) (w : Writer) : Writer :=
  with_nodes w (alter f ref (nodes w)).

(** ['%x' % n]. *)
Definition hex (n : nat) : string :=
  NilZero.string_of_uint (Nat.to_hex_uint n).

(** [Writer.new_dependency]: the changed writer and the new node. *)
Definition new_dependency (w : Writer) (tag : string) : Writer * nat :=
  let id := hex (size (_dependencies w) + 1) in
  let node := {| tag := tag; attrib := {[ tp_dependency := id ]};
                 text := None; children := [] |} in
  let ref := length (nodes w) in
  ({| app := app w;
      _dependencies := <[id := ref]> (_dependencies w);
      users := users w;
      nodes := nodes w ++ [node];
      participants := participants w |}, ref).

Section WithHost.
Context {host : Host}.

(** The children [_register_user] gives to a user's node, in order. *)
Definition user_children (user : User) : list Element :=
  [ tp "username" ∅ ∅ (username user);
    tp "role" ∅ ∅ (Some (pretty (role user)));
    tp "pw_hash" ∅ ∅ (Some (encode_base64 (pw_hash user)));
    tp "display_name" ∅ ∅ (_display_name user);
    tp "first_name" ∅ ∅ (first_name user);
    tp "last_name" ∅ ∅ (last_name user);
    tp "description" ∅ ∅ (description user) ].

(** [Writer._register_user]. *)
Definition _register_user (w : Writer) (user : User) : Writer :=
  let '(w, rv) := new_dependency w (qname TEXTPRESS_NS "user") in
  let w := foldl (fun w p => alter_node (process_user p) rv w) w (participants w) in
  let w := foldl (fun w child => alter_node (fun n => SubElement n child) rv w)
                 w (user_children user) in
  {| app := app w; _dependencies := _dependencies w;
     users := <[user_id user := rv]> (users w);
     nodes := nodes w; participants := participants w |}.

Definition yes_no (b : bool) : string := if b then "yes" else "no".

(** The pickled and encoded payload of a post. *)
Definition post_data (post : Post) : string :=
  encode_base64 (dumps (PyDict [ ("extra", extra post);
                                 ("raw_body", raw_body post);
                                 ("raw_intro", raw_intro post);
                                 ("parser_data", parser_data post) ])).

(** One round of the loop over [post.comments]: the comment element is
    appended to the entry, and so is the comment's [data] element. *)
Definition dump_comment (entry : Element) (c : Comment) : Element :=
  let c_author_el :=
    foldl SubElement (tp "author" ∅ ∅ None)
      [ tp "name" ∅ ∅ (c_author c);
        tp "email" ∅ ∅ (c_email c);
        tp "uri" ∅ ∅ (c_www c) ] in
  let comment :=
    foldl SubElement (tp "comment" ∅ ∅ None)
      [ tp "id" ∅ ∅ (Some (pretty (comment_id c)));
        c_author_el;
        tp "published" ∅ ∅ (Some (format_iso8601 (c_pub_date c)));
        tp "blocked" ∅ ∅ (Some (yes_no (c_blocked c)));
        tp "is_pingback" ∅ ∅ (Some (yes_no (c_is_pingback c)));
        tp "blocked_msg" ∅ ∅ (Some (default "" (c_blocked_msg c)));
        tp "parent" ∅ ∅ (Some (from_option pretty "" (c_parent_id c))) ] in
  let entry := SubElement entry comment in
  SubElement entry
    (tp "data" ∅ ∅
       (Some (encode_base64 (dumps (PyDict [ ("raw_body", c_raw_body c);
                                             ("parser_data", c_parser_data c) ]))))).

(** The entry of a post whose author has the dependency id [dep]: what
    [_dump_post] builds once the lookups have succeeded, before the
    participants see it. *)
Definition post_entry (dep : string) (a : User) (post : Post) : Element :=
  let url := url_for post in
  let author_el :=
    foldl SubElement (set_attrib tp_dependency dep (atom "author" ∅ ∅ None))
      [ atom "name" ∅ ∅ (display_name a);
        atom "email" ∅ ∅ (user_email a) ] in
  let entry :=
    foldl SubElement (atom "entry" {[ "xml:base" := url ]} ∅ None)
      ([ atom "title" ∅ {[ "type" := "text" ]} (title post);
         atom "id" ∅ ∅ (uid post);
         atom "updated" ∅ ∅ (Some (format_iso8601 (last_update post)));
         atom "published" ∅ ∅ (Some (format_iso8601 (pub_date post)));
         atom "link" ∅ {[ "href" := url ]} None;
         author_el;
         tp "slug" ∅ ∅ (slug post);
         tp "id" ∅ ∅ (Some (pretty (post_id post)));
         tp "comments_enabled" ∅ ∅ (Some (yes_no (comments_enabled post)));
         tp "pings_enabled" ∅ ∅ (Some (yes_no (pings_enabled post)));
         tp "status" ∅ ∅ (Some (pretty (status post)));
         atom "content" ∅ {[ "type" := "html" ]} (Some (render (body post))) ]
       ++ match intro post with
          | Some i => [ atom "summary" ∅ {[ "type" := "html" ]} (Some (render i)) ]
          | None => []
          end
       ++ [ tp "data" ∅ ∅ (Some (post_data post)) ]) in
  foldl dump_comment entry (comments post).

(** [Writer._dump_post]. *)
Definition _dump_post (w : Writer) (db : Db) (post : Post) : PyExc + Element :=
  match author db post with
  | None => inl (AttributeError "'NoneType' object has no attribute 'user_id'")
  | Some a =>
      match users w !! user_id a with
      | None => inl (KeyError (pretty (user_id a)))
      | Some ref =>
          match nodes w !! ref ≫= fun n => attrib n !! tp_dependency with
          | None => inl (KeyError tp_dependency)
          | Some dep =>
              inr (foldl (fun e p => process_post p e)
                         (post_entry dep a post) (participants w))
          end
      end
  end.

(** What the generator yields: a literal byte string, or the serialisation
    [dump_node(node)] of a node. *)
Inductive Chunk : Type :=
  | Raw (bytes : string)
  | Dump (node : Element).

Definition ns_map : gmap string string :=
  {[ ATOM_NS := "a"; TEXTPRESS_NS := "tp" ]}.

(** The local function [dump_node]. *)
Definition dump_node (node : Element) : string := etree_write ns_map node.

Definition chunk_bytes (c : Chunk) : string :=
  match c with Raw s => s | Dump n => dump_node n end.

(** The run of a generator: what it yielded, and the exception that ended
    it if it did not run to its end. *)
Record Run : Type := { yielded : list Chunk; raised : option PyExc }.

(** The loop [for participant in self.participants: participant.setup()]:
    it ends at the first participant whose class has no [setup]. *)
Fixpoint setup_all (ps : list Participant) : option PyExc :=
  match ps with
  | [] => None
  | p :: rest =>
      if has_setup p then setup_all rest
      else Some (AttributeError ("'" +:+ participant_class p
                                 +:+ "' object has no attribute 'setup'"))
  end.

(** The loop [for post in posts: yield dump_node(self._dump_post(post))]. *)
Fixpoint dump_posts (w : Writer) (db : Db) (posts : list Post) : Run :=
  match posts with
  | [] => {| yielded := []; raised := None |}
  | post :: rest =>
      match _dump_post w db post with
      | inl e => {| yielded := []; raised := Some e |}
      | inr entry =>
          let r := dump_posts w db rest in
          {| yielded := Dump entry :: yielded r; raised := raised r |}
      end
  end.

(** The nodes of [self._dependencies.itervalues()]. *)
Definition dependency_nodes (w : Writer) : list Element :=
  omap (fun kv => nodes w !! snd kv) (map_to_list (_dependencies w)).

(** The part of [_generate] that dumps the dependencies. *)
Definition dump_dependencies (w : Writer) : list Chunk :=
  if bool_decide (_dependencies w = ∅) then []
  else [Raw "<tp:dependencies>"] ++ (Dump <$> dependency_nodes w)
       ++ [Raw "</tp:dependencies>"].

Definition preamble (a : App) (last : Z) : string :=
  let feed_id := build_tag_uri a last "tpxa_export" "full" in
  XML_PREAMBLE {|
    arg_version := escape textpress_version;
    arg_title := escape (blog_title a);
    arg_subtitle := escape (blog_tagline a);
    arg_atom_ns := ATOM_NS;
    arg_textpress_ns := TEXTPRESS_NS;
    arg_id := escape feed_id;
    arg_blog_url := escape (blog_url a);
    arg_updated := format_iso8601 last |}.

(** [Writer._generate]; [now] is the reading of [datetime.utcnow()]. *)
Definition _generate (w : Writer) (now : Z) (db : Db) : Run :=
  let posts := order_by_last_update_desc db in
  let last :=
    match posts with
    | first_post :: _ => last_update first_post
    | [] => now
    end in
  let head := [Raw (preamble (app w) last)] in
  match setup_all (participants w) with
  | Some e => {| yielded := head; raised := Some e |}
  | None =>
      let w := foldl _register_user w (all_users db) in
      let r := dump_posts w db posts in
      match raised r with
      | Some e => {| yielded := head ++ yielded r; raised := Some e |}
      | None =>
          {| yielded := head ++ yielded r ++ dump_dependencies w
                        ++ [Raw XML_EPILOG];
             raised := None |}
      end
  end.

(** The document: everything the generator yielded, joined. *)
Definition document (r : Run) : string :=
  foldr (fun c s => chunk_bytes c +:+ s) "" (yielded r).


(** ** What is observed of a run *)

(** The node a user is registered under: the dependency node with the
    children [_register_user] appends. *)
Definition user_node (id : string) (user : User) : Element :=
  foldl SubElement
    {| tag := qname TEXTPRESS_NS "user"; attrib := {[ tp_dependency := id ]};
       text := None; children := [] |}
    (user_children user).

(** Referential integrity of the posts: the author of every post is a row
    of the users table. *)
Definition authors_present (db : Db) : Prop :=
  Forall (fun p => is_Some (author db p)) (db_posts db).

#[global] Instance authors_present_dec (db : Db) : Decision (authors_present db) :=
  Forall_dec (fun p => is_Some (author db p)) (db_posts db).

(** The writer after the users [us] have been registered, in this order,
    by a writer without participants. *)
Record registered (w : Writer) (us : list User) : Prop := {
  reg_participants : participants w = [];
  reg_nodes : nodes w = imap (fun i u => user_node (hex (S i)) u) us;
  reg_dependencies :
    map_to_list (_dependencies w) ≡ₚ imap (fun i _ => (hex (S i), i)) us;
  reg_users :
    forall u, u ∈ us -> exists ref, users w !! user_id u = Some ref /\ ref < length us
}.

(** The entries of the posts [ps]: each the entry of its post, built on
    the post's author. *)
Definition entries_of (db : Db) (ps : list Post) (es : list Element) : Prop :=
  Forall2 (fun p e => exists dep a, author db p = Some a /\ e = post_entry dep a p)
          ps es.


(** The time stamp of the feed: that of the post updated last, or the
    time of the export when there is no post. *)
Definition feed_updated (now : Z) (db : Db) : Z :=
  match order_by_last_update_desc db with
  | first_post :: _ => last_update first_post
  | [] => now
  end.

(** What the dependency table of a writer without participants keeps
    true: its ids are the hexadecimal numerals of 1 up to its size, and
    the node stored under an id carries that id. *)
Record dependencies_ok (w : Writer) : Prop := {
  dep_plain : participants w = [];
  dep_keys : forall id ref, _dependencies w !! id = Some ref ->
      exists k, 1 <= k <= size (_dependencies w) /\ id = hex k;
  dep_nodes : forall id ref, _dependencies w !! id = Some ref ->
      exists n, nodes w !! ref = Some n /\ attrib n !! tp_dependency = Some id
}.

(** The writers that calls of [new_dependency] and [_register_user] lead
    to from a new writer. *)
Inductive reachable (a : App) : Writer -> Prop :=
  | reach_init : reachable a (Writer_init a [])
  | reach_new_dependency w tag :
      reachable a w -> reachable a (fst (new_dependency w tag))
  | reach_register_user w user :
      reachable a w -> reachable a (_register_user w user).

(** ** The parts of an entry *)

(** The [comment] element the loop over [post.comments] builds. *)
Definition comment_element (c : Comment) : Element :=
  foldl SubElement (tp "comment" ∅ ∅ None)
    [ tp "id" ∅ ∅ (Some (pretty (comment_id c)));
      foldl SubElement (tp "author" ∅ ∅ None)
        [ tp "name" ∅ ∅ (c_author c);
          tp "email" ∅ ∅ (c_email c);
          tp "uri" ∅ ∅ (c_www c) ];
      tp "published" ∅ ∅ (Some (format_iso8601 (c_pub_date c)));
      tp "blocked" ∅ ∅ (Some (yes_no (c_blocked c)));
      tp "is_pingback" ∅ ∅ (Some (yes_no (c_is_pingback c)));
      tp "blocked_msg" ∅ ∅ (Some (default "" (c_blocked_msg c)));
      tp "parent" ∅ ∅ (Some (from_option pretty "" (c_parent_id c))) ].

(** The [data] element of a comment. *)
Definition comment_data (c : Comment) : Element :=
  tp "data" ∅ ∅
     (Some (encode_base64 (dumps (PyDict [ ("raw_body", c_raw_body c);
                                           ("parser_data", c_parser_data c) ])))).

(** The children an entry has when the loop over the comments begins. *)
Definition entry_head (dep : string) (a : User) (post : Post) : list Element :=
  [ atom "title" ∅ {[ "type" := "text" ]} (title post);
    atom "id" ∅ ∅ (uid post);
    atom "updated" ∅ ∅ (Some (format_iso8601 (last_update post)));
    atom "published" ∅ ∅ (Some (format_iso8601 (pub_date post)));
    atom "link" ∅ {[ "href" := url_for post ]} None;
    foldl SubElement (set_attrib tp_dependency dep (atom "author" ∅ ∅ None))
      [ atom "name" ∅ ∅ (display_name a);
        atom "email" ∅ ∅ (user_email a) ];
    tp "slug" ∅ ∅ (slug post);
    tp "id" ∅ ∅ (Some (pretty (post_id post)));
    tp "comments_enabled" ∅ ∅ (Some (yes_no (comments_enabled post)));
    tp "pings_enabled" ∅ ∅ (Some (yes_no (pings_enabled post)));
    tp "status" ∅ ∅ (Some (pretty (status post)));
    atom "content" ∅ {[ "type" := "html" ]} (Some (render (body post))) ]
  ++ match intro post with
     | Some i => [ atom "summary" ∅ {[ "type" := "html" ]} (Some (render i)) ]
     | None => []
     end
  ++ [ tp "data" ∅ ∅ (Some (post_data post)) ].

(** The node [new_dependency] creates. *)
Definition dependency_node (tag_ id : string) : Element :=
  {| tag := tag_; attrib := {[ tp_dependency := id ]}; text := None;
     children := [] |}.

End WithHost.

(** The number of elements tagged [t] in a tree. *)
Fixpoint count_tag (t : string) (e : Element) : nat :=
  match e with
  | mkElement tg _ _ cs =>
      (if decide (tg = t) then 1 else 0)
      + foldr (fun c n => count_tag t c + n) 0 cs
  end.

(** The number of elements tagged [t] in all the nodes dumped. *)
Fixpoint count_dumped (t : string) (cs : list Chunk) : nat :=
  match cs with
  | [] => 0
  | Raw _ :: rest => count_dumped t rest
  | Dump n :: rest => count_tag t n + count_dumped t rest
  end.

(** The nodes dumped before the first literal chunk [marker]. *)
Fixpoint dumped_before (marker : string) (cs : list Chunk) : list Element :=
  match cs with
  | [] => []
  | Raw b :: rest => if String.eqb b marker then [] else dumped_before marker rest
  | Dump n :: rest => n :: dumped_before marker rest
  end.

(** The chunks after the first literal chunk [marker]. *)
Fixpoint chunks_after (marker : string) (cs : list Chunk) : list Chunk :=
  match cs with
  | [] => []
  | Raw b :: rest => if String.eqb b marker then rest else chunks_after marker rest
  | Dump _ :: rest => chunks_after marker rest
  end.

(** The entry fragments of an export: the nodes dumped ahead of the
    dependency block. *)
Definition entry_fragments (cs : list Chunk) : list Element :=
  dumped_before "<tp:dependencies>" cs.

(** The nodes inside the dependency block of an export. *)
Definition dependency_block (cs : list Chunk) : list Element :=
  dumped_before "</tp:dependencies>" (chunks_after "<tp:dependencies>" cs).

(** ** Comments of an XML document

    Production 15 of XML 1.0: a comment opens with [<!--], and the first
    two hyphens in a row after that have to be the ones of its closing
    [-->]. *)
Inductive Scan : Type :=
  | Outside | SeenLt | SeenLtBang | SeenLtBangDash
  | InComment | InCommentDash | InCommentDashDash.

Definition scan_step (st : Scan) (c : ascii) : option Scan :=
  let outside := if Ascii.eqb c "<" then SeenLt else Outside in
  match st with
  | Outside => Some outside
  | SeenLt => Some (if Ascii.eqb c "!" then SeenLtBang else outside)
  | SeenLtBang => Some (if Ascii.eqb c "-" then SeenLtBangDash else outside)
  | SeenLtBangDash => Some (if Ascii.eqb c "-" then InComment else outside)
  | InComment => Some (if Ascii.eqb c "-" then InCommentDash else InComment)
  | InCommentDash => Some (if Ascii.eqb c "-" then InCommentDashDash else InComment)
  | InCommentDashDash => if Ascii.eqb c ">" then Some Outside else None
  end.

Fixpoint scan (st : Scan) (s : string) : option Scan :=
  match s with
  | EmptyString => Some st
  | String c rest =>
      match scan_step st c with
      | Some st' => scan st' rest
      | None => None
      end
  end.

(** Every comment of the document obeys production 15 and is closed. *)
Definition comments_well_formed (s : string) : bool :=
  match scan Outside s with
  | Some (Outside | SeenLt | SeenLtBang | SeenLtBangDash) => true
  | _ => false
  end.

(** ** A concrete blog *)

(** A host for concrete runs: nothing is escaped or encoded, dates print
    as numbers and a node is written as its empty tag. *)
Definition plain_host : Host :=
  {| textpress_version := "0.1";
     escape := fun s => s;
     format_iso8601 := fun d => pretty d;
     build_tag_uri := fun a d kind name =>
       "tag:" +:+ blog_url a +:+ "," +:+ pretty d +:+ ":" +:+ kind +:+ "/" +:+ name;
     url_for := fun post => "http://localhost/" +:+ default "" (slug post);
     dumps := fun _ => "pickle";
     encode_base64 := fun s => s;
     etree_write := fun _ e => "<" +:+ tag e +:+ " />" |}.

Definition blog : App :=
  {| blog_title := "My Blog"; blog_tagline := "just a blog";
     blog_url := "http://localhost/" |}.

Definition alice : User :=
  {| user_id := 1; username := Some "alice"; role := 4; pw_hash := "x";
     _display_name := Some "$nick"; display_name := Some "alice";
     first_name := None; last_name := None; description := None;
     user_email := Some "alice@example.org" |}.

Definition bob : User :=
  {| user_id := 2; username := Some "bob"; role := 1; pw_hash := "y";
     _display_name := Some "$nick"; display_name := Some "bob";
     first_name := None; last_name := None; description := None;
     user_email := None |}.

Definition hello : Post :=
  {| post_id := 1; title := Some "Hello"; uid := Some "tag:hello";
     slug := Some "hello"; last_update := 100; pub_date := 90;
     author_id := 1; comments_enabled := true; pings_enabled := false;
     status := 2; body := {| render := "<p>Hello</p>" |}; intro := None;
     extra := PyDict []; raw_body := PyStr "Hello"; raw_intro := PyStr "";
     parser_data := PyNone; comments := [] |}.

Definition small_db : Db := {| db_users := [alice; bob]; db_posts := [hello] |}.


(** ** Reading an element *)

(** The children of an element that carry the tag [t]. *)
Definition children_tagged (t : string) (e : Element) : list Element :=
  filter (fun c => tag c = t) (children e).

(** The dependency id the [author] child of an entry refers to. *)
Definition author_dependency (entry : Element) : option string :=
  head (children_tagged (qname ATOM_NS "author") entry)
    ≫= fun c => attrib c !! tp_dependency.

(** ** Participants *)


(** What [users] points to: the node a user id is mapped to is the node of
    the user at that position of the list [us]. *)
Definition users_indexed (w : Writer) (us : list User) : Prop :=
  forall uid ref, users w !! uid = Some ref ->
    exists u, us !! ref = Some u /\ user_id u = uid.

(** ** The output buffer [_MinimalO] *)

(** The object: [_buffer] is the list it holds, [write] the list whose
    [append] it took at construction.  The lists live in a heap. *)
Record MinimalO : Type := { _buffer : nat; write : nat }.

(** [_MinimalO.__init__]. *)
Definition MinimalO_init (heap : gmap nat (list string))
  : MinimalO * gmap nat (list string) :=
  let ref := fresh (dom heap) in
  ({| _buffer := ref; write := ref |}, <[ref := []]> heap).

(** A call [out.write(s)]. *)
Definition out_write (out : MinimalO) (s : string) (heap : gmap nat (list string))
  : gmap nat (list string) :=
  alter (fun l => l ++ [s]) (write out) heap.

(** [''.join(l)]. *)
Definition join (l : list string) : string := foldr String.append "" l.

(** [_MinimalO._get_and_clean]: the list is emptied in place. *)
Definition _get_and_clean (out : MinimalO) (heap : gmap nat (list string))
  : string * gmap nat (list string) :=
  (join (default [] (heap !! _buffer out)), <[_buffer out := []]> heap).

(** [dump_node] on a node whose serialisation makes the calls
    [out.write(s)] for the [s] of [writes], in this order. *)
Definition dump_through (out : MinimalO) (writes : list string)
    (heap : gmap nat (list string)) : string * gmap nat (list string) :=
  _get_and_clean out (foldl (fun h s => out_write out s h) heap writes).

(** [dump_node] on one node after the other, through the same [out]. *)
Fixpoint dump_all (out : MinimalO) (nodes_writes : list (list string))
    (heap : gmap nat (list string)) : list string * gmap nat (list string) :=
  match nodes_writes with
  | [] => ([], heap)
  | writes :: rest =>
      let '(bytes, heap) := dump_through out writes heap in
      let '(more, heap) := dump_all out rest heap in
      (bytes :: more, heap)
  end.

(** ** More concrete data *)

(** A post whose author is not a user. *)
Definition orphan : Post :=
  {| post_id := 2; title := Some "Orphan"; uid := Some "tag:orphan";
     slug := Some "orphan"; last_update := 50; pub_date := 40;
     author_id := 9; comments_enabled := false; pings_enabled := false;
     status := 2; body := {| render := "<p>?</p>" |}; intro := None;
     extra := PyDict []; raw_body := PyStr "?"; raw_intro := PyStr "";
     parser_data := PyNone; comments := [] |}.

Definition broken_db : Db := {| db_users := [alice]; db_posts := [orphan; hello] |}.

End Tpxa.

(** * Properties of the manager extension *)

Section DatabaseFacts.
Import Database.

Lemma bind_dom ref cls h : dom (bind ref cls h).1 = dom h.
Proof.
  unfold bind. destruct (h !! ref) as [[[m|]]|] eqn:E; simpl; try done.
  apply dom_insert_lookup_L. by rewrite E.
Qed.

Lemma bind_all_dom refs cls h : dom (bind_all refs cls h).1 = dom h.
Proof.
  revert h. induction refs as [|r refs IH]; intros h; simpl; [done|].
  pose proof (bind_dom r cls h) as Hd.
  destruct (bind r cls h) as [h' [e|[]]]; simpl in *; [done|].
  by rewrite IH.
Qed.

Lemma bind_all_outcome refs cls h :
  Forall (fun r => is_Some (h !! r)) refs ->
  (bind_all refs cls h).2 = inr tt
  \/ (bind_all refs cls h).2 = inl already_bound_error.
Proof.
  revert h. induction refs as [|r refs IH]; intros h Hall; simpl; [by left|].
  inversion Hall as [|? ? [m Hm] Hrest]; subst.
  pose proof (bind_dom r cls h) as Hd.
  unfold bind in *. rewrite Hm in Hd |- *. destruct m as [[m|]]; simpl in *.
  - by right.
  - apply IH. eapply Forall_impl; [exact Hrest|].
    intros x Hx. apply elem_of_dom. rewrite Hd. by apply elem_of_dom.
Qed.

Lemma bind_all_unbound refs cls h :
  NoDup refs ->
  Forall (fun r => h !! r = Some {| model := None |}) refs ->
  (bind_all refs cls h).2 = inr tt
  /\ Forall (fun r => (bind_all refs cls h).1 !! r
                      = Some {| model := Some cls |}) refs
  /\ forall r, r ∉ refs -> (bind_all refs cls h).1 !! r = h !! r.
Proof.
  revert h. induction refs as [|r refs IH]; intros h Hnd Hall; simpl.
  { by repeat split. }
  apply NoDup_cons in Hnd as [Hr Hnd].
  inversion Hall as [|? ? Hm Hrest]; subst.
  unfold bind. rewrite Hm. simpl.
  destruct (IH (<[r := {| model := Some cls |}]> h) Hnd) as (Hok & Hbound & Hother).
  { rewrite Forall_forall in Hrest |- *. intros x Hx.
    rewrite lookup_insert_ne; [by apply Hrest|]. intros ->. done. }
  split; [done|]. split.
  - constructor; [|done]. rewrite Hother; [|done]. by rewrite lookup_insert_eq.
  - intros x Hx. apply not_elem_of_cons in Hx as [Hne Hx].
    rewrite Hother; [|done]. by rewrite lookup_insert_ne.
Qed.

Lemma init_instance_unsaved instance kwargs w :
  truthy (default (PyBool false) (kwargs !! "_tp_no_save")) = true ->
  (init_instance instance kwargs w).1.1 = w
  /\ (init_instance instance kwargs w).2 = inr EXT_CONTINUE.
Proof.
  intros Ht. unfold init_instance, dict_pop.
  rewrite lookup_delete_ne by done. rewrite Ht. done.
Qed.

Lemma init_instance_saved instance kwargs w sid :
  attached w !! instance = None ->
  truthy (default (PyBool false) (kwargs !! "_tp_no_save")) = false ->
  target_session kwargs w = Some sid ->
  init_instance instance kwargs w
  = (fst (_save_impl sid instance (default PyNone (kwargs !! "_sa_entity_name")) w),
     delete "_sa_entity_name" (delete "_tp_no_save" (delete "_sa_session" kwargs)),
     inr EXT_CONTINUE).
Proof.
  intros Hnew Ht Htarget. unfold init_instance, dict_pop, target_session in *.
  rewrite lookup_delete_ne by done. rewrite Ht. simpl.
  rewrite !lookup_delete_ne by done.
  unfold _save_impl, get_session. rewrite Hnew.
  destruct (kwargs !! "_sa_session") as [[]|]; simpl in *; congruence.
Qed.

Lemma init_instance_refused instance kwargs w :
  truthy (default (PyBool false) (kwargs !! "_tp_no_save")) = false ->
  target_session kwargs w = None ->
  (init_instance instance kwargs w).1.1 = w
  /\ exists e, (init_instance instance kwargs w).2 = inl e.
Proof.
  intros Ht Htarget. unfold init_instance, dict_pop, target_session in *.
  rewrite lookup_delete_ne by done. rewrite Ht. simpl.
  destruct (kwargs !! "_sa_session") as [[]|]; simpl in *; try congruence; eauto.
Qed.

Lemma pending_of_saved sid instance entity w s :
  attached w !! instance = None ->
  pending_of (_save_impl sid instance entity w).1 s
  = if decide (s = sid) then pending_of w sid ++ [(instance, entity)]
    else pending_of w s.
Proof.
  intros Hnew. unfold _save_impl. rewrite Hnew. unfold pending_of at 1. simpl.
  case_decide as Hs.
  - subst. by rewrite lookup_insert_eq.
  - by rewrite lookup_insert_ne.
Qed.

Lemma filter_other_instance (instance : nat) (l : list (nat * PyObj)) :
  instance ∉ l.*1 -> filter (fun p => fst p ≠ instance) l = l.
Proof.
  induction l as [|[i e] l IH]; simpl; intros Hnot; [done|].
  apply not_elem_of_cons in Hnot as [Hne Hnot].
  rewrite filter_cons_True by (simpl; congruence). by rewrite IH.
Qed.

(** C4, as the code has it: a class with managers of its own gets no
    default manager, only [_tp_managers], and its managers are bound, which
    raises the already-bound RuntimeError or succeeds (and succeeds when
    they are distinct and unbound); a class without managers that has an
    [objects] attribute raises the collision RuntimeError and stays as it
    is; any other class gets a new manager as [objects], bound to it. *)
Theorem instrument_class_spec (w : Models) :
  managers_allocated w ->
  let c := class_ w in
  let w' := (instrument_class w).1 in
  let r := (instrument_class w).2 in
  match own_managers c with
  | _ :: _ =>
      class_ w' = setattr c "_tp_managers" (AttrManagers (own_managers c))
      /\ dom (managers_heap w') = dom (managers_heap w)
      /\ (r = inr tt \/ r = inl already_bound_error)
      /\ (NoDup (own_managers c) ->
          Forall (fun m => managers_heap w !! m = Some {| model := None |})
                 (own_managers c) ->
          r = inr tt
          /\ Forall (fun m => managers_heap w' !! m
                              = Some {| model := Some (cls_name c) |})
                    (own_managers c))
  | [] =>
      if hasattr c "objects" then w' = w /\ r = inl collision_error
      else exists mgr,
          managers_heap w !! mgr = None
          /\ r = inr tt
          /\ class_ w' = setattr (setattr c "objects" (AttrManager mgr))
                                 "_tp_managers" (AttrManagers [mgr])
          /\ cls_dict (class_ w') !! "objects" = Some (AttrManager mgr)
          /\ managers_heap w'
             = <[mgr := {| model := Some (cls_name c) |}]> (managers_heap w)
  end.
Proof.
  intros Halloc c w' r. subst w' r. unfold instrument_class.
  fold c. unfold managers_allocated in Halloc. fold c in Halloc.
  destruct (own_managers c) as [|m ms] eqn:Hown.
  - destruct (hasattr c "objects"); [done|].
    set (mgr := fresh (dom (managers_heap w))).
    assert (managers_heap w !! mgr = None) as Hfresh.
    { apply not_elem_of_dom. apply is_fresh. }
    exists mgr. simpl. unfold bind. rewrite lookup_insert_eq. simpl.
    repeat split; try done.
    + rewrite lookup_insert_ne by done. by rewrite lookup_insert_eq.
    + by rewrite insert_insert_eq.
  - pose proof (bind_all_dom (m :: ms) (cls_name c) (managers_heap w)) as Hd.
    pose proof (bind_all_outcome (m :: ms) (cls_name c) (managers_heap w) Halloc) as Ho.
    pose proof (bind_all_unbound (m :: ms) (cls_name c) (managers_heap w)) as Hu.
    destruct (bind_all (m :: ms) (cls_name c) (managers_heap w)) as [h' r].
    simpl in *. split; [done|]. split; [done|]. split; [done|].
    intros Hnd Hall. by destruct (Hu Hnd Hall) as (? & ? & ?).
Qed.

Lemma instrument_class_spec_witness :
  managers_allocated own_manager_model
  /\ (instrument_class own_manager_model).2 = inr tt.
Proof.
  assert (own_managers (class_ own_manager_model) = [3]) as Hown
    by (vm_compute; reflexivity).
  assert (managers_allocated own_manager_model) as H.
  { unfold managers_allocated. rewrite Hown.
    constructor; [|constructor]. eexists. vm_compute. reflexivity. }
  split; [exact H|].
  pose proof (instrument_class_spec own_manager_model H) as Hspec.
  cbv zeta in Hspec. rewrite Hown in Hspec.
  destruct Hspec as (_ & _ & _ & Hok). apply Hok.
  - apply NoDup_singleton.
  - constructor; [|constructor]. vm_compute. reflexivity.
Defined.

(** C4 as stated fails: a class whose dictionary holds one manager under
    two names has managers of its own, and instrumenting it raises a
    RuntimeError that is not the collision error. *)
Lemma instrument_class_other_error :
  own_managers (class_ shared_manager_model) = [0; 0]
  /\ (instrument_class shared_manager_model).2 = inl already_bound_error
  /\ already_bound_error <> collision_error.
Proof. repeat split; [vm_compute; reflexivity..|discriminate]. Qed.

(** C5, as the code has it: a new instance is registered as new in the
    session given as [_sa_session], or in the scope's session when none is
    given, with its entity name, and belongs to that session afterwards;
    with a true [_tp_no_save] nothing changes at all. *)
Theorem init_instance_spec (instance : nat) (kwargs : gmap string PyObj) (w : Orm) :
  attached w !! instance = None ->
  let w' := (init_instance instance kwargs w).1.1 in
  let r := (init_instance instance kwargs w).2 in
  if truthy (default (PyBool false) (kwargs !! "_tp_no_save"))
  then w' = w /\ r = inr EXT_CONTINUE
  else match target_session kwargs w with
       | Some sid =>
           r = inr EXT_CONTINUE
           /\ pending_of w' sid
              = pending_of w sid
                ++ [(instance, default PyNone (kwargs !! "_sa_entity_name"))]
           /\ (forall s, s <> sid -> pending_of w' s = pending_of w s)
           /\ object_session instance w' = Some sid
       | None => w' = w /\ exists e, r = inl e
       end.
Proof.
  intros Hnew w' r. subst w' r.
  destruct (truthy (default (PyBool false) (kwargs !! "_tp_no_save"))) eqn:Ht.
  { by apply init_instance_unsaved. }
  destruct (target_session kwargs w) as [sid|] eqn:Htarget.
  - rewrite (init_instance_saved _ _ _ sid) by done. simpl.
    split; [done|]. split; [|split].
    + rewrite pending_of_saved by done. by rewrite decide_True.
    + intros s Hs. rewrite pending_of_saved by done. by rewrite decide_False.
    + unfold object_session, _save_impl. rewrite Hnew. simpl.
      by rewrite lookup_insert_eq.
  - by apply init_instance_refused.
Qed.

Lemma init_instance_spec_witness :
  attached idle_orm !! 5 = None
  /\ pending_of (init_instance 5 {[ "_sa_entity_name" := PyStr "draft" ]} idle_orm).1.1 1
     = [(5, PyStr "draft")].
Proof.
  assert (attached idle_orm !! 5 = None) as H by reflexivity.
  split; [exact H|].
  pose proof (init_instance_spec 5 {[ "_sa_entity_name" := PyStr "draft" ]} idle_orm H)
    as Hspec.
  cbv zeta in Hspec.
  change (truthy _) with false in Hspec.
  change (target_session _ idle_orm) with (Some 1) in Hspec.
  destruct Hspec as (_ & Hpending & _). rewrite Hpending. reflexivity.
Defined.

(** C5 as stated fails: constructed with [_sa_session] set to session 7
    and nothing suppressed, the instance is registered in session 7, and
    the scope's session (session 1) does not get it. *)
Lemma init_instance_other_session :
  let kwargs : gmap string PyObj := {[ "_sa_session" := PyRef 7 ]} in
  let w' := (init_instance 5 kwargs idle_orm).1.1 in
  truthy (default (PyBool false) (kwargs !! "_tp_no_save")) = false
  /\ registry idle_orm = 1
  /\ pending_of w' 1 = []
  /\ pending_of w' 7 = [(5, PyNone)].
Proof. repeat split; vm_compute; reflexivity. Qed.

(** C10: when the initialisation of a new instance fails after
    [init_instance], [init_failed] leaves every session with what it held
    before the construction and no trace of the instance; an instance that
    was given a session is expunged from that very session, and one that
    was given none makes the handler itself raise. *)
Theorem init_failed_restores (instance : nat) (kwargs : gmap string PyObj) (w : Orm) :
  new_instance w instance ->
  let w1 := (init_instance instance kwargs w).1.1 in
  let w2 := (init_failed instance w1).1 in
  (forall sid, pending_of w2 sid = pending_of w sid)
  /\ attached w2 = attached w
  /\ registry w2 = registry w
  /\ (forall sid, object_session instance w1 = Some sid ->
        instance ∈ (pending_of w1 sid).*1
        /\ (init_failed instance w1).2 = inr EXT_CONTINUE)
  /\ (object_session instance w1 = None ->
        exists msg, (init_failed instance w1).2 = inl (AttributeError msg)).
Proof.
  intros [Hnew Hpending] w1 w2.
  assert (w1 = w -> (forall sid, pending_of w2 sid = pending_of w sid)
                    /\ attached w2 = attached w
                    /\ registry w2 = registry w
                    /\ (forall sid, object_session instance w1 = Some sid ->
                          instance ∈ (pending_of w1 sid).*1
                          /\ (init_failed instance w1).2 = inr EXT_CONTINUE)
                    /\ (object_session instance w1 = None ->
                          exists msg, (init_failed instance w1).2
                                      = inl (AttributeError msg)))
    as Hsame.
  { intros Hw. subst w2. rewrite Hw. unfold init_failed, object_session.
    rewrite Hnew. simpl. split; [done|]. split; [done|]. split; [done|].
    split; [congruence|eauto]. }
  destruct (truthy (default (PyBool false) (kwargs !! "_tp_no_save"))) eqn:Ht.
  { apply Hsame. by apply init_instance_unsaved. }
  destruct (target_session kwargs w) as [sid|] eqn:Htarget.
  2: { apply Hsame. by apply init_instance_refused. }
  clear Hsame. subst w2 w1.
  rewrite (init_instance_saved _ _ _ sid) by done. simpl.
  set (entity := default PyNone (kwargs !! "_sa_entity_name")).
  pose proof (pending_of_saved sid instance entity w) as Hsaved.
  unfold _save_impl in *. rewrite Hnew in *. simpl in *.
  unfold init_failed, object_session. simpl. rewrite lookup_insert_eq. simpl.
  split; [|split; [|split; [|split]]].
  - intros s. unfold pending_of at 1. simpl.
    destruct (decide (s = sid)) as [->|Hs].
    + rewrite lookup_insert_eq. simpl. rewrite Hsaved by done.
      rewrite decide_True by done. rewrite filter_app.
      rewrite filter_other_instance by apply Hpending.
      rewrite filter_cons_False by (simpl; tauto).
      by rewrite filter_nil, app_nil_r.
    + rewrite !lookup_insert_ne by done. done.
  - rewrite delete_insert_eq. by apply delete_id.
  - done.
  - intros s [= <-]. split; [|done]. rewrite Hsaved by done.
    rewrite decide_True by done. rewrite fmap_app. set_solver.
  - done.
Qed.

Lemma init_failed_restores_witness :
  new_instance idle_orm 5
  /\ pending_of (init_failed 5 (init_instance 5 ∅ idle_orm).1.1).1 1 = [].
Proof.
  assert (new_instance idle_orm 5) as H.
  { split; [reflexivity|]. intros sid. unfold pending_of. simpl.
    rewrite lookup_empty. simpl. apply not_elem_of_nil. }
  split; [exact H|].
  destruct (init_failed_restores 5 ∅ idle_orm H) as (Hpending & _).
  rewrite Hpending. reflexivity.
Defined.

End DatabaseFacts.

(** * Properties of the TPXA writer *)

Section TpxaFacts.
Import Tpxa.
Context {host : Host}.

(** ** Dependency ids *)

Lemma little_succ_not_nil d : Hexadecimal.Little.succ d <> Hexadecimal.Nil.
Proof. destruct d; discriminate. Qed.

Lemma to_little_hex_uint_not_nil n d :
  d <> Hexadecimal.Nil -> Nat.to_little_hex_uint n d <> Hexadecimal.Nil.
Proof.
  revert d. induction n as [|n IH]; intros d Hd; simpl; [done|].
  apply IH, little_succ_not_nil.
Qed.

Lemma to_hex_uint_not_nil n : Nat.to_hex_uint n <> Hexadecimal.Nil.
Proof.
  unfold Nat.to_hex_uint. intros H.
  apply HexadecimalFacts.rev_nil_inv in H.
  by apply to_little_hex_uint_not_nil in H.
Qed.

Lemma hex_inj n m : hex n = hex m -> n = m.
Proof.
  unfold hex. intros H.
  apply HexadecimalNat.Unsigned.to_uint_inj.
  pose proof (NilZero.usu _ (to_hex_uint_not_nil n)) as Hn.
  pose proof (NilZero.usu _ (to_hex_uint_not_nil m)) as Hm.
  rewrite H in Hn. congruence.
Qed.

(** ** Registering users *)

Lemma alter_last {A} (f : A -> A) (l : list A) (x : A) :
  alter f (length l) (l ++ [x]) = l ++ [f x].
Proof. induction l as [|y l IH]; simpl; [done|]. f_equal. apply IH. Qed.

Lemma alter_twice {A} (f g : A -> A) (l : list A) (i : nat) :
  alter g i (alter f i l) = alter (fun x => g (f x)) i l.
Proof.
  revert i. induction l as [|y l IH]; intros [|i]; simpl; try done.
  f_equal. apply IH.
Qed.

Lemma append_children w ref cs :
  foldl (fun w child => alter_node (fun n => SubElement n child) ref w) w cs
  = alter_node (fun n => foldl SubElement n cs) ref w.
Proof.
  revert w. induction cs as [|c cs IH]; intros w; simpl.
  - unfold alter_node, with_nodes. rewrite list_alter_id by done. by destruct w.
  - rewrite IH. unfold alter_node, with_nodes. simpl.
    by rewrite alter_twice.
Qed.

(** Without participants, registering a user stores one new node, the
    user's, in [_dependencies] under the next id and in [users] under the
    user's id. *)
Lemma register_user_plain w user :
  participants w = [] ->
  let id := hex (size (_dependencies w) + 1) in
  _register_user w user
  = {| app := app w;
       _dependencies := <[id := length (nodes w)]> (_dependencies w);
       users := <[user_id user := length (nodes w)]> (users w);
       nodes := nodes w ++ [user_node id user];
       participants := [] |}.
Proof.
  intros Hp id. unfold _register_user, new_dependency.
  cbv beta iota zeta. cbn [participants]. rewrite Hp. cbn [foldl].
  rewrite append_children. unfold alter_node, with_nodes.
  cbn [app _dependencies users nodes participants].
  by rewrite alter_last.
Qed.

Lemma user_node_dependency id user :
  attrib (user_node id user) !! tp_dependency = Some id.
Proof.
  unfold user_node.
  assert (forall cs e, attrib (foldl SubElement e cs) = attrib e) as Hattr.
  { induction cs as [|c cs IH]; intros e; simpl; [done|]. by rewrite IH. }
  rewrite Hattr. simpl. by rewrite lookup_singleton_eq.
Qed.

Lemma registered_size w us : registered w us -> size (_dependencies w) = length us.
Proof.
  intros [_ _ Hd _]. rewrite <- length_map_to_list, Hd. by rewrite length_imap.
Qed.

Lemma registered_init a : registered (Writer_init a []) [].
Proof.
  split.
  - done.
  - done.
  - unfold Writer_init. cbn [_dependencies]. by rewrite map_to_list_empty.
  - intros u Hu. by apply elem_of_nil in Hu.
Qed.

Lemma registered_step w us user :
  registered w us -> registered (_register_user w user) (us ++ [user]).
Proof.
  intros Hreg. pose proof (registered_size _ _ Hreg) as Hsize.
  destruct Hreg as [Hp Hn Hd Hu].
  assert (length (nodes w) = length us) as Hlen.
  { rewrite Hn. by rewrite length_imap. }
  rewrite register_user_plain by done. rewrite Hsize, Hlen.
  replace (length us + 1) with (S (length us)) by lia.
  split; simpl.
  - done.
  - rewrite imap_app. simpl. rewrite Nat.add_0_r. by rewrite Hn.
  - rewrite imap_app. simpl. rewrite Nat.add_0_r.
    rewrite map_to_list_insert.
    + rewrite Hd. apply Permutation_cons_append.
    + destruct (_dependencies w !! hex (S (length us))) as [v|] eqn:E; [|done].
      apply elem_of_map_to_list in E. rewrite Hd in E.
      apply elem_of_lookup_imap in E as (i & u & Heq & Hi).
      injection Heq as Hh _. apply hex_inj in Hh.
      apply lookup_lt_Some in Hi. lia.
  - intros u Hin. rewrite length_app. simpl.
    destruct (decide (user_id u = user_id user)) as [->|Hne].
    + exists (length us). rewrite lookup_insert_eq. split; [done|lia].
    + rewrite lookup_insert_ne by done.
      apply elem_of_app in Hin as [Hin|Hin].
      * destruct (Hu u Hin) as (ref & Href & Hlt). exists ref. split; [done|lia].
      * apply list_elem_of_singleton in Hin. congruence.
Qed.

Lemma registered_all us : forall w us0,
  registered w us0 -> registered (foldl _register_user w us) (us0 ++ us).
Proof.
  induction us as [|u us IH]; intros w us0 Hreg; simpl.
  - by rewrite app_nil_r.
  - replace (us0 ++ u :: us) with ((us0 ++ [u]) ++ us)
      by (by rewrite <- app_assoc).
    apply IH. by apply registered_step.
Qed.

(** ** Dumping posts *)

Lemma author_is_user db post a : author db post = Some a -> a ∈ db_users db.
Proof.
  unfold author. intros H. apply find_some in H as [H _].
  by apply list_elem_of_In.
Qed.

(** After all users are registered, the lookups of [_dump_post] succeed
    for a post whose author is a user. *)
Lemma dump_post_plain w db post a :
  registered w (db_users db) ->
  author db post = Some a ->
  exists dep, _dump_post w db post = inr (post_entry dep a post).
Proof.
  intros [Hp Hn _ Hu] Ha. unfold _dump_post. rewrite Ha.
  destruct (Hu a (author_is_user _ _ _ Ha)) as (ref & Href & Hlt).
  rewrite Href, Hn, list_lookup_imap.
  destruct (lookup_lt_is_Some_2 (db_users db) ref Hlt) as [u Hlookup].
  rewrite Hlookup. cbn [fmap option_fmap option_map mbind option_bind].
  rewrite user_node_dependency, Hp. simpl. eauto.
Qed.

Lemma dump_posts_plain w db ps :
  registered w (db_users db) ->
  Forall (fun p => is_Some (author db p)) ps ->
  exists es, dump_posts w db ps = {| yielded := Dump <$> es; raised := None |}
             /\ entries_of db ps es.
Proof.
  intros Hreg. induction ps as [|p ps IH]; intros Hall; simpl.
  - exists []. split; [done|]. constructor.
  - inversion Hall as [|? ? [a Ha] Hrest]; subst.
    destruct (dump_post_plain w db p a Hreg Ha) as [dep Hdump].
    destruct (IH Hrest) as (es & Hes & Hentries).
    rewrite Hdump, Hes. simpl. exists (post_entry dep a p :: es).
    split; [done|]. constructor; eauto.
Qed.

(** ** The posts query *)

#[local] Instance newer_or_equal_total : Total newer_or_equal.
Proof. intros p q. unfold newer_or_equal. lia. Qed.

#[local] Instance newer_or_equal_trans : Transitive newer_or_equal.
Proof. intros p q r. unfold newer_or_equal. lia. Qed.

Lemma order_by_sorted db : StronglySorted newer_or_equal (order_by_last_update_desc db).
Proof. unfold order_by_last_update_desc. apply StronglySorted_merge_sort; apply _. Qed.

Lemma order_by_permutation db : order_by_last_update_desc db ≡ₚ db_posts db.
Proof. apply merge_sort_Permutation. Qed.

(** ** The shape of a run *)

Lemma generate_plain a now db :
  authors_present db ->
  let w := foldl _register_user (Writer_init a []) (all_users db) in
  exists es,
    _generate (Writer_init a []) now db
    = {| yielded := [Raw (preamble a (feed_updated now db))] ++ (Dump <$> es)
                    ++ dump_dependencies w ++ [Raw XML_EPILOG];
         raised := None |}
    /\ entries_of db (order_by_last_update_desc db) es.
Proof.
  intros Hauthors w.
  assert (registered w (db_users db)) as Hreg.
  { apply (registered_all (db_users db) _ []), registered_init. }
  assert (Forall (fun p => is_Some (author db p)) (order_by_last_update_desc db))
    as Hall.
  { rewrite order_by_permutation. exact Hauthors. }
  destruct (dump_posts_plain w db _ Hreg Hall) as (es & Hes & Hentries).
  exists es. split; [|done].
  unfold _generate. cbn [participants Writer_init setup_all].
  fold w. rewrite Hes. reflexivity.
Qed.

(** ** The dependency block *)

Lemma lookup_by_position {A B} (g : nat -> B) (us : list A) :
  forall (pre l : list Element),
    length l = length us ->
    omap (fun kv : B * nat => (pre ++ l) !! snd kv)
         (imap (fun i _ => (g (length pre + i), length pre + i)) us)
    = l.
Proof.
  induction us as [|u us IH]; intros pre l Hlen.
  - by destruct l.
  - destruct l as [|x l]; [done|]. injection Hlen as Hlen.
    cbn [imap omap list_omap snd]. rewrite Nat.add_0_r, list_lookup_middle by done.
    f_equal. specialize (IH (pre ++ [x]) l Hlen).
    rewrite <- app_assoc in IH. cbn [List.app] in IH.
    etrans; [|exact IH]. change list_omap with (@omap list _) in *.
    f_equal. apply imap_ext. intros i y _.
    cbn. rewrite length_app. cbn [length].
    by replace (length pre + 1 + i) with (length pre + S i) by lia.
Qed.

(** The dependency block holds the nodes of the registered users, one
    each. *)
Lemma dependency_nodes_registered w us :
  registered w us ->
  dependency_nodes w ≡ₚ imap (fun i u => user_node (hex (S i)) u) us.
Proof.
  intros [_ Hn Hd _]. unfold dependency_nodes. rewrite Hd.
  pose proof (lookup_by_position (fun i => hex (S i)) us [] (nodes w)) as H.
  simpl in H. rewrite H.
  - by rewrite Hn.
  - rewrite Hn. by rewrite length_imap.
Qed.

Lemma dependencies_empty_registered w us :
  registered w us -> _dependencies w = ∅ <-> us = [].
Proof.
  intros Hreg. pose proof (registered_size _ _ Hreg) as Hsize.
  rewrite <- map_size_empty_iff, Hsize. by destruct us.
Qed.

(** ** Reading a run *)

Lemma dumped_before_dumps marker es rest :
  dumped_before marker ((Dump <$> es) ++ rest) = es ++ dumped_before marker rest.
Proof. induction es as [|e es IH]; simpl; [done|]. f_equal. apply IH. Qed.

Lemma chunks_after_dumps marker es rest :
  chunks_after marker ((Dump <$> es) ++ rest) = chunks_after marker rest.
Proof. induction es as [|e es IH]; simpl; [done|]. apply IH. Qed.

Lemma preamble_not_marker a last marker :
  marker = "<tp:dependencies>" \/ marker = "</tp:dependencies>" ->
  String.eqb (preamble a last) marker = false.
Proof. intros [-> | ->]; vm_compute; reflexivity. Qed.

Lemma chunks_after_here marker rest :
  chunks_after marker (Raw marker :: rest) = rest.
Proof. simpl. by rewrite String.eqb_refl. Qed.

Lemma dumped_before_here marker rest :
  dumped_before marker (Raw marker :: rest) = [].
Proof. simpl. by rewrite String.eqb_refl. Qed.

Lemma entry_fragments_of_run pre es w :
  String.eqb pre "<tp:dependencies>" = false ->
  entry_fragments ([Raw pre] ++ (Dump <$> es) ++ dump_dependencies w
                   ++ [Raw XML_EPILOG]) = es.
Proof.
  intros Hpre. unfold entry_fragments. cbn [List.app dumped_before].
  rewrite Hpre, dumped_before_dumps. unfold dump_dependencies.
  case_bool_decide.
  - by rewrite app_nil_r.
  - rewrite <- !app_assoc. cbn [List.app].
    by rewrite dumped_before_here, app_nil_r.
Qed.

Lemma dependency_block_of_run pre es w :
  String.eqb pre "<tp:dependencies>" = false ->
  dependency_block ([Raw pre] ++ (Dump <$> es) ++ dump_dependencies w
                    ++ [Raw XML_EPILOG])
  = if bool_decide (_dependencies w = ∅) then [] else dependency_nodes w.
Proof.
  intros Hpre. unfold dependency_block. cbn [List.app chunks_after].
  rewrite Hpre, chunks_after_dumps. unfold dump_dependencies.
  case_bool_decide.
  - reflexivity.
  - rewrite <- !app_assoc. cbn [List.app].
    rewrite chunks_after_here, dumped_before_dumps. cbn [List.app].
    by rewrite dumped_before_here, app_nil_r.
Qed.

(** ** Counting entries *)

Lemma count_tag_children t e cs :
  count_tag t (foldl SubElement e cs)
  = count_tag t e + foldr (fun c n => count_tag t c + n) 0 cs.
Proof.
  revert e. induction cs as [|c cs IH]; intros e; simpl; [lia|].
  rewrite IH. destruct e as [tg at_ tx ch]. simpl.
  rewrite foldr_app. simpl.
  assert (forall l k, foldr (fun c n => count_tag t c + n) k l
                      = foldr (fun c n => count_tag t c + n) 0 l + k) as Hshift.
  { induction l as [|y l IHl]; intros k; simpl; [done|]. rewrite IHl. lia. }
  rewrite (Hshift ch). lia.
Qed.



Lemma append_inj_l (s a b : string) : s +:+ a = s +:+ b -> a = b.
Proof.
  induction s as [|c s IH]; simpl; intros H; [done|].
  apply IH. by injection H.
Qed.

Lemma qname_inj ns a b : qname ns a = qname ns b -> a = b.
Proof. unfold qname. intros H. by do 3 apply append_inj_l in H. Qed.

Lemma qname_textpress_not_atom a b : qname TEXTPRESS_NS a <> qname ATOM_NS b.
Proof.
  unfold qname, TEXTPRESS_NS, ATOM_NS. cbn [String.append]. intros H.
  discriminate H.
Qed.

Lemma count_leaf t tg attrs txt :
  tg <> t -> count_tag t (mkElement tg attrs txt []) = 0.
Proof. intros H. cbn [count_tag foldr]. by rewrite decide_False. Qed.

Lemma count_entry_tp name attrs extra txt :
  count_tag (qname ATOM_NS "entry") (tp name attrs extra txt) = 0.
Proof. apply count_leaf, qname_textpress_not_atom. Qed.






(** A user's node holds none. *)
Lemma count_entry_user id user :
  count_tag (qname ATOM_NS "entry") (user_node id user) = 0.
Proof.
  unfold user_node. rewrite count_tag_children. unfold user_children.
  cbn [foldr]. rewrite !count_entry_tp.
  rewrite count_leaf by apply qname_textpress_not_atom. done.
Qed.

Lemma count_dumped_app t cs1 cs2 :
  count_dumped t (cs1 ++ cs2) = count_dumped t cs1 + count_dumped t cs2.
Proof.
  induction cs1 as [|[b|n] cs1 IH]; simpl; [done|done|]. rewrite IH. lia.
Qed.

Lemma count_dumped_nodes t ns :
  count_dumped t (Dump <$> ns) = foldr (fun n k => count_tag t n + k) 0 ns.
Proof. induction ns as [|n ns IH]; simpl; [done|]. f_equal. apply IH. Qed.


Lemma count_zero t ns :
  Forall (fun n => count_tag t n = 0) ns ->
  foldr (fun n k => count_tag t n + k) 0 ns = 0.
Proof. induction 1 as [|n ns Hn _ IH]; simpl; [done|]. by rewrite Hn, IH. Qed.

Lemma count_entry_dependencies w us :
  registered w us ->
  count_dumped (qname ATOM_NS "entry") (dump_dependencies w) = 0.
Proof.
  intros Hreg. unfold dump_dependencies. case_bool_decide; [done|].
  rewrite !count_dumped_app, count_dumped_nodes. cbn [count_dumped].
  rewrite count_zero; [done|].
  rewrite (dependency_nodes_registered _ _ Hreg).
  apply Forall_forall. intros n Hn.
  apply elem_of_lookup_imap in Hn as (i & u & -> & _).
  apply count_entry_user.
Qed.

(** ** The children of an entry *)

Lemma children_appended e cs : children (foldl SubElement e cs) = children e ++ cs.
Proof.
  revert e. induction cs as [|c cs IH]; intros e; simpl.
  - by rewrite app_nil_r.
  - rewrite IH. simpl. by rewrite <- app_assoc.
Qed.

Lemma children_kept_by_comments x cs : forall e,
  x ∈ children e -> x ∈ children (foldl dump_comment e cs).
Proof.
  induction cs as [|c cs IH]; intros e Hx; simpl; [done|].
  apply IH. unfold dump_comment. cbv zeta. cbn [SubElement children].
  set_solver.
Qed.

Lemma post_data_in_entry dep a post :
  tp "data" ∅ ∅ (Some (post_data post)) ∈ children (post_entry dep a post).
Proof.
  unfold post_entry. cbv zeta. apply children_kept_by_comments.
  rewrite children_appended. set_solver.
Qed.

Lemma entries_of_lookup db ps es p :
  entries_of db ps es -> p ∈ ps ->
  exists e dep a, e ∈ es /\ author db p = Some a /\ e = post_entry dep a p.
Proof.
  induction 1 as [|q e ps es (dep & a & Ha & ->) _ IH]; intros Hp.
  - by apply elem_of_nil in Hp.
  - apply elem_of_cons in Hp as [->|Hp].
    + exists (post_entry dep a q), dep, a. split; [constructor|done].
    + destruct (IH Hp) as (e' & dep' & a' & He & Ha' & ->).
      exists (post_entry dep' a' p), dep', a'. split; [by constructor|done].
Qed.

(** ** Comments in the document *)

Lemma scan_append s1 s2 : forall st,
  scan st (s1 +:+ s2)
  = match scan st s1 with Some st' => scan st' s2 | None => None end.
Proof.
  induction s1 as [|c s1 IH]; intros st; simpl; [done|].
  destruct (scan_step st c); [apply IH|done].
Qed.

Lemma scan_preamble_head : scan Outside XML_PREAMBLE_HEAD = None.
Proof. vm_compute. reflexivity. Qed.

Lemma generate_starts_with_preamble w now db :
  exists last rest,
    yielded (_generate w now db) = Raw (preamble (app w) last) :: rest.
Proof.
  unfold _generate.
  destruct (setup_all (participants w)); [simpl; eauto|].
  match goal with |- context [raised ?r] => destruct (raised r) end;
    simpl; eauto.
Qed.

(** ** The dependency table *)

Lemma dependencies_ok_fresh w :
  dependencies_ok w ->
  _dependencies w !! hex (size (_dependencies w) + 1) = None.
Proof.
  intros [_ Hk _].
  destruct (_dependencies w !! hex (size (_dependencies w) + 1)) as [ref|] eqn:E;
    [|done].
  destruct (Hk _ _ E) as (k & Hle & Heq). apply hex_inj in Heq. lia.
Qed.

Lemma dependencies_ok_stored w a us node :
  dependencies_ok w ->
  attrib node !! tp_dependency = Some (hex (size (_dependencies w) + 1)) ->
  dependencies_ok
    {| app := a;
       _dependencies := <[hex (size (_dependencies w) + 1) := length (nodes w)]>
                          (_dependencies w);
       users := us;
       nodes := nodes w ++ [node];
       participants := [] |}.
Proof.
  intros Hok Hnode. pose proof (dependencies_ok_fresh w Hok) as Hfresh.
  destruct Hok as [Hp Hk Hn]. split; cbn [participants _dependencies nodes].
  - done.
  - intros id ref Hid. rewrite map_size_insert_None by done.
    destruct (decide (id = hex (size (_dependencies w) + 1))) as [->|Hne].
    + exists (size (_dependencies w) + 1). split; [lia|done].
    + rewrite lookup_insert_ne in Hid by done.
      destruct (Hk _ _ Hid) as (k & Hle & ->). exists k. split; [lia|done].
  - intros id ref Hid.
    destruct (decide (id = hex (size (_dependencies w) + 1))) as [->|Hne].
    + rewrite lookup_insert_eq in Hid. injection Hid as <-.
      exists node. split; [|done]. by rewrite list_lookup_middle.
    + rewrite lookup_insert_ne in Hid by done.
      destruct (Hn _ _ Hid) as (n & Hlookup & Hattr). exists n.
      split; [|done]. by apply lookup_app_l_Some.
Qed.

Lemma reachable_ok a w : reachable a w -> dependencies_ok w.
Proof.
  induction 1 as [|w tag _ IH|w user _ IH].
  - split; [done|..]; intros id ref H; unfold Writer_init in H;
      cbn [_dependencies] in H; by rewrite lookup_empty in H.
  - pose proof (dep_plain _ IH) as Hp.
    unfold new_dependency. cbn [fst]. rewrite Hp.
    apply dependencies_ok_stored; [done|]. cbn [attrib].
    by rewrite lookup_singleton_eq.
  - rewrite register_user_plain by apply IH.
    apply dependencies_ok_stored; [done|]. apply user_node_dependency.
Qed.

(** ** Runs over any database *)






(** ** The claims about the export *)




(** C6: the entry of every exported post has a [data] child in the
    TextPress namespace whose text is the base64 encoding of the pickled
    dictionary of the post's [extra], [raw_body], [raw_intro] and
    [parser_data]. *)
Theorem export_post_data (a : App) (now : Z) (db : Db) :
  authors_present db ->
  let r := _generate (Writer_init a []) now db in
  forall p, p ∈ db_posts db ->
    exists entry dep au,
      entry ∈ entry_fragments (yielded r)
      /\ author db p = Some au
      /\ entry = post_entry dep au p
      /\ {| tag := qname TEXTPRESS_NS "data"; attrib := ∅;
            text := Some (encode_base64 (dumps (PyDict
                      [ ("extra", extra p); ("raw_body", raw_body p);
                        ("raw_intro", raw_intro p);
                        ("parser_data", parser_data p) ])));
            children := [] |} ∈ children entry.
Proof.
  intros Hauthors r p Hp. subst r.
  destruct (generate_plain a now db Hauthors) as (es & Hrun & Hentries).
  rewrite Hrun. cbn [yielded].
  rewrite entry_fragments_of_run by (apply preamble_not_marker; by left).
  rewrite <- order_by_permutation in Hp.
  destruct (entries_of_lookup _ _ _ _ Hentries Hp) as (e & dep & au & He & Hau & ->).
  exists (post_entry dep au p), dep, au. repeat split; try done.
  pose proof (post_data_in_entry dep au p) as Hdata.
  unfold tp, helper, post_data in Hdata.
  by rewrite (left_id_L ∅ (∪)) in Hdata.
Qed.

(** C7 does not hold of the code: whatever the writer and the database,
    the document opens with a comment that has two hyphens in a row inside
    it, which production 15 of XML forbids. *)
Theorem export_comment_malformed (w : Writer) (now : Z) (db : Db) :
  comments_well_formed (document (_generate w now db)) = false.
Proof.
  destruct (generate_starts_with_preamble w now db) as (last & rest & Hrun).
  unfold comments_well_formed, document. rewrite Hrun. cbn [foldr chunk_bytes].
  unfold preamble, XML_PREAMBLE.
  by rewrite !scan_append, scan_preamble_head.
Qed.

(** C8: in every writer that calls of [new_dependency] and
    [_register_user] lead to, a call of [new_dependency] stores the new
    node under the hexadecimal numeral of the size plus one, an id the
    table does not hold yet; what was stored stays stored and unchanged,
    and every stored node carries its own id, so no two carry the same. *)
Theorem new_dependency_fresh (a : App) (w : Writer) (tag_ : string) :
  reachable a w ->
  let id := hex (size (_dependencies w) + 1) in
  let w' := (new_dependency w tag_).1 in
  let ref := (new_dependency w tag_).2 in
  _dependencies w !! id = None
  /\ _dependencies w' = <[id := ref]> (_dependencies w)
  /\ nodes w' !! ref = Some {| tag := tag_; attrib := {[ tp_dependency := id ]};
                              text := None; children := [] |}
  /\ size (_dependencies w') = S (size (_dependencies w))
  /\ (forall id0 ref0, _dependencies w !! id0 = Some ref0 ->
        _dependencies w' !! id0 = Some ref0
        /\ nodes w' !! ref0 = nodes w !! ref0)
  /\ (forall id1 ref1, _dependencies w' !! id1 = Some ref1 ->
        exists n1, nodes w' !! ref1 = Some n1
                   /\ attrib n1 !! tp_dependency = Some id1)
  /\ (forall id1 id2 ref1 ref2 n1 n2,
        _dependencies w' !! id1 = Some ref1 -> nodes w' !! ref1 = Some n1 ->
        _dependencies w' !! id2 = Some ref2 -> nodes w' !! ref2 = Some n2 ->
        id1 <> id2 ->
        attrib n1 !! tp_dependency <> attrib n2 !! tp_dependency).
Proof.
  intros Hreach id w' ref.
  pose proof (reachable_ok a w Hreach) as Hok.
  pose proof (dependencies_ok_fresh w Hok) as Hfresh.
  pose proof (reachable_ok a w' (reach_new_dependency a w tag_ Hreach)) as Hok'.
  subst id w' ref. unfold new_dependency in *. cbn [fst snd] in *.
  cbn [_dependencies nodes] in *.
  split; [done|]. split; [done|]. split; [by rewrite list_lookup_middle|].
  split; [by rewrite map_size_insert_None|]. split.
  - intros id0 ref0 Hid0. split.
    + rewrite lookup_insert_ne; [done|]. intros <-. congruence.
    + destruct (dep_nodes _ Hok _ _ Hid0) as (n & Hn & _).
      rewrite Hn. by apply lookup_app_l_Some.
  - split; [intros id1 ref1 Hid1; exact (dep_nodes _ Hok' _ _ Hid1)|].
    intros id1 id2 ref1 ref2 n1 n2 Hid1 Hn1 Hid2 Hn2 Hne.
    destruct (dep_nodes _ Hok' _ _ Hid1) as (m1 & Hm1 & Ha1).
    destruct (dep_nodes _ Hok' _ _ Hid2) as (m2 & Hm2 & Ha2).
    cbn [nodes] in Hm1, Hm2. congruence.
Qed.

(** C9: without posts the run still ends well; the preamble carries the
    time of the export as the time of the last update, the dependency
    block follows when there are users, then the epilogue, and no entry is
    dumped at all. *)
Theorem export_without_posts (a : App) (now : Z) (us : list User) :
  let db := {| db_users := us; db_posts := [] |} in
  let r := _generate (Writer_init a []) now db in
  let w := foldl _register_user (Writer_init a []) us in
  raised r = None
  /\ yielded r
     = [Raw (preamble a now)]
       ++ match us with
          | [] => []
          | _ :: _ => [Raw "<tp:dependencies>"] ++ (Dump <$> dependency_nodes w)
                      ++ [Raw "</tp:dependencies>"]
          end
       ++ [Raw XML_EPILOG]
  /\ (exists args, preamble a now = XML_PREAMBLE args
                   /\ arg_updated args = format_iso8601 now)
  /\ dependency_nodes w ≡ₚ imap (fun i u => user_node (hex (S i)) u) us
  /\ entry_fragments (yielded r) = []
  /\ count_dumped (qname ATOM_NS "entry") (yielded r) = 0.
Proof.
  intros db r w.
  assert (registered w us) as Hreg.
  { apply (registered_all us _ []), registered_init. }
  assert (yielded r = [Raw (preamble a now)] ++ (Dump <$> [])
                      ++ dump_dependencies w ++ [Raw XML_EPILOG]
          /\ raised r = None) as [Hrun Hraised].
  { subst r. unfold _generate. by cbn. }
  rewrite Hraised. split; [done|].
  pose proof (dependencies_empty_registered _ _ Hreg) as Hempty.
  split; [|split; [|split; [|split]]].
  - rewrite Hrun. cbn [fmap list_fmap List.app]. f_equal. f_equal.
    unfold dump_dependencies. case_bool_decide as He.
    + apply Hempty in He. by rewrite He.
    + destruct us; [|done]. by destruct He; apply Hempty.
  - eexists. split; [reflexivity|]. reflexivity.
  - by apply dependency_nodes_registered.
  - rewrite Hrun.
    by rewrite entry_fragments_of_run by (apply preamble_not_marker; by left).
  - rewrite Hrun, !count_dumped_app.
    rewrite (count_entry_dependencies _ us Hreg). reflexivity.
Qed.

End TpxaFacts.

(** * The claims on a concrete blog *)

Section OnTheSmallBlog.
Import Tpxa.






Lemma export_post_data_witness :
  authors_present small_db
  /\ hello ∈ db_posts small_db
  /\ exists entry,
       entry ∈ entry_fragments
         (yielded (_generate (host := plain_host) (Writer_init blog []) 7 small_db))
       /\ {| tag := qname TEXTPRESS_NS "data"; attrib := ∅;
             text := Some "pickle"; children := [] |} ∈ children entry.
Proof.
  assert (authors_present small_db) as H.
  { repeat constructor. eexists. vm_compute. reflexivity. }
  assert (hello ∈ db_posts small_db) as Hin by constructor.
  split; [exact H|]. split; [exact Hin|].
  destruct (@export_post_data plain_host blog 7 small_db H hello Hin)
    as (entry & _ & _ & Hentry & _ & _ & Hdata).
  exists entry. split; [exact Hentry|exact Hdata].
Defined.

Lemma new_dependency_fresh_witness :
  reachable (host := plain_host) blog
    (_register_user (host := plain_host) (Writer_init blog []) alice)
  /\ _dependencies (_register_user (host := plain_host) (Writer_init blog []) alice)
       !! hex 2 = None.
Proof.
  assert (reachable (host := plain_host) blog
            (_register_user (host := plain_host) (Writer_init blog []) alice)) as H.
  { apply reach_register_user, reach_init. }
  split; [exact H|].
  destruct (@new_dependency_fresh plain_host blog _ "{http://textpress.pocoo.org/}tag" H)
    as (Hfresh & _).
  exact Hfresh.
Defined.

End OnTheSmallBlog.

(** * More about the manager extension *)

Section DatabaseMore.
Import Database.

Lemma elem_of_own_managers c r :
  r ∈ own_managers c <-> exists k, cls_dict c !! k = Some (AttrManager r).
Proof.
  unfold own_managers. rewrite list_elem_of_omap. split.
  - intros ([k a] & Hin & Ha). apply elem_of_map_to_list in Hin.
    destruct a; simpl in Ha; try discriminate. injection Ha as ->. eauto.
  - intros (k & Hk). exists (k, AttrManager r).
    split; [by apply elem_of_map_to_list|done].
Qed.

Lemma bind_all_first_bound r rest cls h other :
  h !! r = Some {| model := Some other |} ->
  bind_all (r :: rest) cls h = (h, inl already_bound_error).
Proof. intros Hr. simpl. unfold bind. by rewrite Hr. Qed.

Lemma bind_all_success refs cls h :
  (bind_all refs cls h).2 = inr tt ->
  NoDup refs /\ Forall (fun r => h !! r = Some {| model := None |}) refs.
Proof.
  revert h. induction refs as [|r refs IH]; intros h Hok.
  { split; constructor. }
  simpl in Hok. unfold bind in Hok.
  destruct (h !! r) as [[[other|]]|] eqn:Hr; simpl in Hok; try discriminate.
  destruct (IH _ Hok) as [Hnd Hall].
  assert (r ∉ refs) as Hnotin.
  { intros Hin. rewrite Forall_forall in Hall. specialize (Hall r Hin).
    rewrite lookup_insert_eq in Hall. discriminate. }
  split; [by constructor|]. constructor; [done|].
  rewrite Forall_forall in Hall |- *. intros x Hx. specialize (Hall x Hx).
  rewrite lookup_insert_ne in Hall; [done|]. intros ->. done.
Qed.

Lemma bind_all_frame refs cls h r :
  (forall other, h !! r = Some {| model := Some other |} ->
     (bind_all refs cls h).1 !! r = Some {| model := Some other |})
  /\ ((bind_all refs cls h).1 !! r = h !! r
      \/ (bind_all refs cls h).1 !! r = Some {| model := Some cls |}).
Proof.
  revert h. induction refs as [|x refs IH]; intros h; simpl; [by split; [|left]|].
  unfold bind. destruct (h !! x) as [[[other|]]|] eqn:Hx; simpl;
    try (by split; [|left]).
  destruct (IH (<[x := {| model := Some cls |}]> h)) as [Hkeep Hchange].
  destruct (decide (x = r)) as [->|Hne].
  - rewrite lookup_insert_eq in Hkeep, Hchange. split.
    + intros other Hr. congruence.
    + right. destruct Hchange as [->| ->]; [done|done].
  - rewrite lookup_insert_ne in Hkeep, Hchange by done. by split.
Qed.

(** The outcome of instrumenting a class with managers of its own is
    decided by the managers found: it succeeds if and only if they are
    distinct objects that are all unbound. *)
Theorem instrument_class_succeeds_iff (w : Models) :
  own_managers (class_ w) <> [] ->
  (instrument_class w).2 = inr tt
  <-> NoDup (own_managers (class_ w))
      /\ Forall (fun m => managers_heap w !! m = Some {| model := None |})
                (own_managers (class_ w)).
Proof.
  intros Hown. unfold instrument_class.
  destruct (own_managers (class_ w)) as [|m ms] eqn:E; [done|].
  pose proof (bind_all_success (m :: ms) (cls_name (class_ w)) (managers_heap w)) as Hs.
  pose proof (bind_all_unbound (m :: ms) (cls_name (class_ w)) (managers_heap w)) as Hu.
  destruct (bind_all (m :: ms) (cls_name (class_ w)) (managers_heap w)) as [h' r].
  simpl in *. split; [exact Hs|]. intros [Hnd Hall].
  by destruct (Hu Hnd Hall) as (? & _).
Qed.

(** Instrumenting a class never gives a bound manager another model, and
    whatever manager it changes it binds to the class at hand. *)
Theorem instrument_class_binds_only_free (w : Models) (r : nat) :
  let w' := (instrument_class w).1 in
  (forall other, managers_heap w !! r = Some {| model := Some other |} ->
     managers_heap w' !! r = Some {| model := Some other |})
  /\ (managers_heap w' !! r = managers_heap w !! r
      \/ managers_heap w' !! r = Some {| model := Some (cls_name (class_ w)) |}).
Proof.
  intros w'. subst w'. unfold instrument_class.
  destruct (own_managers (class_ w)) as [|m ms] eqn:E.
  - destruct (hasattr (class_ w) "objects"); [by split; [|left]|].
    set (mgr := fresh (dom (managers_heap w))).
    assert (managers_heap w !! mgr = None) as Hfresh.
    { apply not_elem_of_dom. apply is_fresh. }
    simpl. unfold bind. rewrite lookup_insert_eq. simpl.
    rewrite insert_insert_eq.
    destruct (decide (mgr = r)) as [<-|Hne].
    + rewrite lookup_insert_eq. split; [congruence|by right].
    + rewrite lookup_insert_ne by done. by split; [|left].
  - pose proof (bind_all_frame (m :: ms) (cls_name (class_ w)) (managers_heap w) r) as Hf.
    destruct (bind_all (m :: ms) (cls_name (class_ w)) (managers_heap w)) as [h' res].
    exact Hf.
Qed.

Lemma instrument_class_default w :
  own_managers (class_ w) = [] ->
  hasattr (class_ w) "objects" = false ->
  let mgr := fresh (dom (managers_heap w)) in
  instrument_class w
  = ({| class_ := setattr (setattr (class_ w) "objects" (AttrManager mgr))
                          "_tp_managers" (AttrManagers [mgr]);
        managers_heap := <[mgr := {| model := Some (cls_name (class_ w)) |}]>
                           (managers_heap w) |}, inr tt).
Proof.
  intros Hown Hhas mgr. unfold instrument_class. rewrite Hown, Hhas.
  fold mgr. cbn [bind_all]. unfold bind. rewrite lookup_insert_eq.
  by rewrite insert_insert_eq.
Qed.

Lemma instrument_class_own w m ms :
  own_managers (class_ w) = m :: ms ->
  instrument_class w
  = ({| class_ := setattr (class_ w) "_tp_managers" (AttrManagers (m :: ms));
        managers_heap := (bind_all (m :: ms) (cls_name (class_ w)) (managers_heap w)).1 |},
     (bind_all (m :: ms) (cls_name (class_ w)) (managers_heap w)).2).
Proof.
  intros Hown. unfold instrument_class. rewrite Hown.
  by destruct (bind_all (m :: ms) (cls_name (class_ w)) (managers_heap w)).
Qed.

Lemma first_manager_bound c (h : gmap nat DatabaseManager) r0 :
  r0 ∈ own_managers c ->
  (forall r, r ∈ own_managers c -> exists other, h !! r = Some {| model := Some other |}) ->
  exists m ms other,
    own_managers c = m :: ms /\ h !! m = Some {| model := Some other |}.
Proof.
  intros Hin Hall. destruct (own_managers c) as [|m ms].
  - by apply elem_of_nil in Hin.
  - destruct (Hall m) as [other Hother]; [constructor|]. eauto.
Qed.

(** A class can be instrumented once: after a run that succeeded, a
    second run on the same class raises the already-bound error. *)
Theorem instrument_class_twice (w : Models) :
  (instrument_class w).2 = inr tt ->
  cls_dict (class_ w) !! "_tp_managers" ≫= is_manager = None ->
  (instrument_class (instrument_class w).1).2 = inl already_bound_error.
Proof.
  intros Hok Hname.
  assert (exists m ms other,
             own_managers (class_ (instrument_class w).1) = m :: ms
             /\ managers_heap (instrument_class w).1 !! m
                = Some {| model := Some other |}) as (m & ms & other & Hown & Hbound).
  { destruct (own_managers (class_ w)) as [|m0 ms0] eqn:E.
    - destruct (hasattr (class_ w) "objects") eqn:Hhas.
      { unfold instrument_class in Hok. rewrite E, Hhas in Hok. discriminate. }
      rewrite (instrument_class_default w E Hhas). cbn [fst class_ managers_heap].
      set (mgr := fresh (dom (managers_heap w))).
      apply (first_manager_bound _ _ mgr).
      + apply elem_of_own_managers. exists "objects". cbn [setattr cls_dict].
        rewrite lookup_insert_ne by done. by rewrite lookup_insert_eq.
      + intros r Hr. apply elem_of_own_managers in Hr as (k & Hk).
        cbn [setattr cls_dict] in Hk.
        destruct (decide (k = "_tp_managers")) as [->|Hk1].
        { rewrite lookup_insert_eq in Hk. discriminate. }
        rewrite lookup_insert_ne in Hk by done.
        destruct (decide (k = "objects")) as [->|Hk2].
        { rewrite lookup_insert_eq in Hk. injection Hk as <-.
          rewrite lookup_insert_eq. eauto. }
        rewrite lookup_insert_ne in Hk by done.
        assert (r ∈ own_managers (class_ w)) as Hcontra.
        { apply elem_of_own_managers. eauto. }
        rewrite E in Hcontra. by apply elem_of_nil in Hcontra.
    - rewrite (instrument_class_own w m0 ms0 E) in Hok |- *.
      cbn [fst snd class_ managers_heap] in *.
      destruct (bind_all_success _ _ _ Hok) as [Hnd Hall].
      destruct (bind_all_unbound _ (cls_name (class_ w)) _ Hnd Hall)
        as (_ & Hbound & _).
      rewrite Forall_forall in Hbound.
      assert (forall x, x ∈ own_managers
                (setattr (class_ w) "_tp_managers" (AttrManagers (m0 :: ms0)))
              <-> x ∈ m0 :: ms0) as Hsame.
      { intros x. rewrite <- E. rewrite !elem_of_own_managers.
        cbn [setattr cls_dict]. split.
        - intros (k & Hk). destruct (decide (k = "_tp_managers")) as [->|Hk1].
          + rewrite lookup_insert_eq in Hk. discriminate.
          + rewrite lookup_insert_ne in Hk by done. eauto.
        - intros (k & Hk). exists k.
          destruct (decide (k = "_tp_managers")) as [->|Hk1].
          + rewrite Hk in Hname. discriminate.
          + by rewrite lookup_insert_ne. }
      apply (first_manager_bound _ _ m0).
      + apply Hsame. constructor.
      + intros r Hr. apply Hsame in Hr. eauto. }
  unfold instrument_class at 1. rewrite Hown.
  rewrite (bind_all_first_bound _ _ _ _ other) by done. done.
Qed.

(** What [init_instance] leaves of the keywords for the constructor:
    [_sa_session] and [_tp_no_save] are always taken out, [_sa_entity_name]
    only when the instance is to be saved, and every other keyword stays. *)
Theorem init_instance_keywords (instance : nat) (kwargs : gmap string PyObj) (w : Orm) :
  let kwargs' := (init_instance instance kwargs w).1.2 in
  kwargs' !! "_sa_session" = None
  /\ kwargs' !! "_tp_no_save" = None
  /\ kwargs' !! "_sa_entity_name"
     = (if truthy (default (PyBool false) (kwargs !! "_tp_no_save"))
        then kwargs !! "_sa_entity_name" else None)
  /\ (forall k, k <> "_sa_session" -> k <> "_tp_no_save" ->
        k <> "_sa_entity_name" -> kwargs' !! k = kwargs !! k).
Proof.
  intros kwargs'.
  assert (kwargs' = if truthy (default (PyBool false) (kwargs !! "_tp_no_save"))
                    then delete "_tp_no_save" (delete "_sa_session" kwargs)
                    else delete "_sa_entity_name"
                           (delete "_tp_no_save" (delete "_sa_session" kwargs)))
    as ->.
  { subst kwargs'. unfold init_instance, dict_pop.
    rewrite lookup_delete_ne by done.
    destruct (truthy (default (PyBool false) (kwargs !! "_tp_no_save"))); simpl;
      [done|].
    destruct (kwargs !! "_sa_session") as [[]|]; simpl; try done;
      match goal with |- context [_save_impl ?a ?b ?c ?d] =>
        destruct (_save_impl a b c d) as [? [?|?]] end; done. }
  destruct (truthy (default (PyBool false) (kwargs !! "_tp_no_save")));
    repeat split;
    try (intros k H1 H2 H3);
    rewrite ?lookup_delete_eq, ?lookup_delete_ne by done;
    rewrite ?lookup_delete_eq, ?lookup_delete_ne by done;
    rewrite ?lookup_delete_eq, ?lookup_delete_ne by done; done.
Qed.

End DatabaseMore.

(** * The namespace of the [db] module *)

Section DbModule.
Import Database.
Context {V : Type}.
#[local] Set Warnings "-clear-no-such-hyp".

Lemma import_public_spec (m : PyModule V) (st : DbState V) :
  db_namespace (import_public m st)
  = (FromLibrary <$> exported m) ∪ db_namespace st
  /\ public_names (import_public m st) = dom (exported m) ∪ public_names st.
Proof.
  unfold import_public, exported.
  apply (map_fold_weak_ind
    (fun r (d : gmap string V) =>
       db_namespace r
       = (FromLibrary <$> filter (fun kv => fst kv ∈ mod_all m) d) ∪ db_namespace st
       /\ public_names r
          = dom (filter (fun kv => fst kv ∈ mod_all m) d) ∪ public_names st)).
  - rewrite map_filter_empty, fmap_empty, dom_empty_L.
    by rewrite !(left_id_L ∅ (∪)).
  - intros key value d r Hnone [Hns Hpn]. case_bool_decide as Hin.
    + rewrite map_filter_insert_True by done. cbn [db_namespace public_names].
      rewrite fmap_insert, dom_insert_L, Hns, Hpn.
      split; [by rewrite insert_union_l|set_solver].
    + rewrite map_filter_insert_not by (simpl; intros; done).
      by rewrite Hns, Hpn.
Qed.

Lemma import_session_names_spec (names : list string) : forall (st : DbState V),
  (forall name, db_namespace (foldl import_session_name st names) !! name
     = if bool_decide (name ∈ names) then Some (SessionAttr name)
       else db_namespace st !! name)
  /\ public_names (foldl import_session_name st names)
     = list_to_set names ∪ public_names st.
Proof.
  induction names as [|n names IH]; intros st; simpl.
  - split; [done|set_solver].
  - destruct (IH (import_session_name st n)) as [Hns Hpn]. split.
    + intros name. rewrite Hns. cbn [import_session_name db_namespace].
      destruct (decide (name ∈ names)) as [Hin|Hin].
      { rewrite (bool_decide_eq_true_2 _ Hin).
        rewrite bool_decide_eq_true_2; [done|]. by constructor. }
      rewrite (bool_decide_eq_false_2 _ Hin).
      destruct (decide (n = name)) as [->|Hne].
      * rewrite lookup_insert_eq.
        rewrite bool_decide_eq_true_2; [done|]. constructor.
      * rewrite lookup_insert_ne by done.
        rewrite bool_decide_eq_false_2; [done|].
        intros Hcons. apply elem_of_cons in Hcons as [->|]; done.
    + rewrite Hpn. cbn [import_session_name public_names]. set_solver.
Qed.

(** The namespace of [db], name by name: the four objects the module
    defines itself and the ten session attributes are bound to the
    module's own objects whatever the libraries export; every other name is
    bound to what [orm] exports under it, else to what [sqlalchemy]
    exports under it, else not at all. *)
Theorem db_namespace_lookup (sqlalchemy orm : PyModule V) (name : string) :
  db_namespace (fill_db sqlalchemy orm) !! name
  = if bool_decide (name ∈ ["DatabaseManager"; "session"; "get_engine"; "mapper"])
    then Some (Own name)
    else if bool_decide (name ∈ session_names) then Some (SessionAttr name)
    else FromLibrary <$> (exported orm ∪ exported sqlalchemy) !! name.
Proof.
  unfold fill_db. cbn [foldl set_own db_namespace].
  destruct (import_session_names_spec session_names
              (set_own "get_engine" (set_own "mapper"
                 (import_public orm (import_public sqlalchemy
                    {| db_namespace := ∅;
                       public_names := list_to_set
                         ["mapper"; "get_engine"; "session"; "DatabaseManager"] |})))))
    as [Hns _].
  destruct (import_public_spec orm (import_public sqlalchemy
              {| db_namespace := ∅;
                 public_names := list_to_set
                   ["mapper"; "get_engine"; "session"; "DatabaseManager"] |}))
    as [Horm _].
  destruct (import_public_spec sqlalchemy
              {| db_namespace := ∅;
                 public_names := list_to_set
                   ["mapper"; "get_engine"; "session"; "DatabaseManager"] |})
    as [Hsa _].
  cbn [db_namespace] in Hsa. rewrite (right_id_L ∅ (∪)) in Hsa.
  destruct (decide (name = "DatabaseManager")) as [->|H1].
  { by rewrite lookup_insert_eq. }
  rewrite lookup_insert_ne by done.
  destruct (decide (name = "session")) as [->|H2].
  { by rewrite lookup_insert_eq. }
  rewrite lookup_insert_ne by done. rewrite Hns.
  cbn [set_own db_namespace].
  destruct (decide (name ∈ session_names)) as [Hs|Hs].
  { rewrite (bool_decide_eq_true_2 _ Hs). unfold session_names in Hs.
    repeat (apply elem_of_cons in Hs as [->|Hs]); try reflexivity.
    by apply elem_of_nil in Hs. }
  rewrite (bool_decide_eq_false_2 _ Hs).
  destruct (decide (name = "get_engine")) as [->|H3].
  { by rewrite lookup_insert_eq. }
  rewrite lookup_insert_ne by done.
  destruct (decide (name = "mapper")) as [->|H4].
  { by rewrite lookup_insert_eq. }
  rewrite lookup_insert_ne by done.
  rewrite bool_decide_eq_false_2.
  2: { intros Hin. repeat (apply elem_of_cons in Hin as [->|Hin]); try done.
       by apply elem_of_nil in Hin. }
  rewrite Horm, Hsa. rewrite <- map_fmap_union. by rewrite lookup_fmap.
Qed.

Lemma fill_db_public_names (sqlalchemy orm : PyModule V) :
  public_names (fill_db sqlalchemy orm)
  = list_to_set session_names ∪ dom (exported orm) ∪ dom (exported sqlalchemy)
    ∪ list_to_set ["mapper"; "get_engine"; "session"; "DatabaseManager"].
Proof.
  unfold fill_db. cbn [foldl set_own public_names].
  destruct (import_session_names_spec session_names
              (set_own "get_engine" (set_own "mapper"
                 (import_public orm (import_public sqlalchemy
                    {| db_namespace := ∅;
                       public_names := list_to_set
                         ["mapper"; "get_engine"; "session"; "DatabaseManager"] |})))))
    as [_ Hpn].
  rewrite Hpn. cbn [set_own public_names].
  destruct (import_public_spec orm (import_public sqlalchemy
              {| db_namespace := ∅;
                 public_names := list_to_set
                   ["mapper"; "get_engine"; "session"; "DatabaseManager"] |}))
    as [_ Horm].
  rewrite Horm.
  destruct (import_public_spec sqlalchemy
              {| db_namespace := ∅;
                 public_names := list_to_set
                   ["mapper"; "get_engine"; "session"; "DatabaseManager"] |})
    as [_ Hsa].
  rewrite Hsa. cbn [public_names]. by rewrite !(assoc_L (∪)).
Qed.

(** [db.__all__] and the namespace agree: a name is listed in [__all__]
    exactly when one of the statements that fill [db] binds it, so no
    listed name is missing and nothing they bind is left out. *)
Theorem db_all_is_namespace (sqlalchemy orm : PyModule V) (name : string) :
  name ∈ db_all sqlalchemy orm
  <-> is_Some (db_namespace (fill_db sqlalchemy orm) !! name).
Proof.
  unfold db_all. rewrite merge_sort_Permutation, elem_of_elements.
  rewrite fill_db_public_names, db_namespace_lookup.
  rewrite !elem_of_union, !elem_of_list_to_set.
  destruct (decide (name ∈ ["DatabaseManager"; "session"; "get_engine"; "mapper"]))
    as [Hown|Hown].
  { rewrite (bool_decide_eq_true_2 _ Hown). split; [eauto|]. intros _. right.
    repeat (apply elem_of_cons in Hown as [->|Hown]);
      [repeat constructor..|by apply elem_of_nil in Hown]. }
  rewrite (bool_decide_eq_false_2 _ Hown).
  assert (name ∉ ["mapper"; "get_engine"; "session"; "DatabaseManager"]) as Hown'.
  { intros Hin. apply Hown.
    repeat (apply elem_of_cons in Hin as [->|Hin]);
      [repeat constructor..|by apply elem_of_nil in Hin]. }
  destruct (decide (name ∈ session_names)) as [Hs|Hs].
  { rewrite (bool_decide_eq_true_2 _ Hs). split; [eauto|]. intros _. by do 3 left. }
  rewrite (bool_decide_eq_false_2 _ Hs).
  rewrite fmap_is_Some, <- elem_of_dom, dom_union_L, elem_of_union. tauto.
Qed.

End DbModule.

(** * More about the TPXA writer *)

Section TpxaMore.
Import Tpxa.
Context {host : Host}.

(** ** The time stamp of the feed *)

(** Every run opens with the preamble, and the time stamp in it is the
    latest last update of any post, or the time of the export when there
    is no post. *)
Theorem feed_updated_latest (w : Writer) (now : Z) (db : Db) :
  (exists rest,
     yielded (_generate w now db)
     = Raw (preamble (app w) (feed_updated now db)) :: rest)
  /\ (forall p, p ∈ db_posts db -> (last_update p <= feed_updated now db)%Z)
  /\ match db_posts db with
     | [] => feed_updated now db = now
     | _ :: _ => exists p, p ∈ db_posts db /\ feed_updated now db = last_update p
     end.
Proof.
  split; [|split].
  - unfold _generate. fold (feed_updated now db).
    destruct (setup_all (participants w)); [simpl; eauto|].
    match goal with |- context [raised ?r] => destruct (raised r) end;
      simpl; eauto.
  - intros p Hp. rewrite <- order_by_permutation in Hp.
    pose proof (order_by_sorted db) as Hsorted. unfold feed_updated.
    destruct (order_by_last_update_desc db) as [|q qs]; [by apply elem_of_nil in Hp|].
    apply StronglySorted_inv in Hsorted as [_ Hall].
    apply elem_of_cons in Hp as [->|Hp]; [lia|].
    rewrite Forall_forall in Hall. exact (Hall p Hp).
  - pose proof (order_by_permutation db) as Hperm. unfold feed_updated.
    destruct (db_posts db) as [|p0 ps] eqn:E.
    + apply Permutation_nil_r in Hperm. by rewrite Hperm.
    + destruct (order_by_last_update_desc db) as [|q qs].
      { by apply Permutation_nil_cons in Hperm. }
      exists q. split; [|done]. rewrite <- Hperm. constructor.
Qed.

(** ** A post without author *)

Lemma dump_posts_app w db before rest :
  raised (dump_posts w db before) = None ->
  dump_posts w db (before ++ rest)
  = {| yielded := yielded (dump_posts w db before) ++ yielded (dump_posts w db rest);
       raised := raised (dump_posts w db rest) |}.
Proof.
  induction before as [|q before IH]; simpl.
  - intros _. by destruct (dump_posts w db rest).
  - destruct (_dump_post w db q) as [e|entry]; simpl; [discriminate|].
    intros Hr. by rewrite IH.
Qed.

(** When the query reaches a post whose author is no user, the run ends
    there with an AttributeError: it has yielded the preamble and the
    entries of the posts before, and neither the dependency block nor the
    epilogue follows. *)
Theorem export_stops_at_orphan (a : App) (now : Z) (db : Db)
    (before : list Post) (p : Post) (after : list Post) :
  order_by_last_update_desc db = before ++ p :: after ->
  Forall (fun q => is_Some (author db q)) before ->
  author db p = None ->
  exists es,
    _generate (Writer_init a []) now db
    = {| yielded := [Raw (preamble a (feed_updated now db))] ++ (Dump <$> es);
         raised := Some (AttributeError "'NoneType' object has no attribute 'user_id'") |}
    /\ entries_of db before es.
Proof.
  intros Horder Hbefore Hp.
  set (w := foldl _register_user (Writer_init a []) (all_users db)).
  assert (registered w (db_users db)) as Hreg.
  { apply (registered_all (db_users db) _ []), registered_init. }
  destruct (dump_posts_plain w db before Hreg Hbefore) as (es & Hes & Hentries).
  exists es. split; [|done].
  unfold _generate. cbn [participants Writer_init setup_all].
  fold w. fold (feed_updated now db). rewrite Horder.
  rewrite dump_posts_app by (by rewrite Hes). rewrite Hes.
  cbn [dump_posts yielded raised]. unfold _dump_post at 1 2. rewrite Hp.
  cbn [yielded raised]. by rewrite app_nil_r.
Qed.

(** ** The children of an entry *)

Lemma tag_appended e cs : tag (foldl SubElement e cs) = tag e.
Proof. revert e. induction cs as [|c cs IH]; intros e; simpl; [done|]. by rewrite IH. Qed.

Lemma dump_comment_parts e c :
  dump_comment e c = SubElement (SubElement e (comment_element c)) (comment_data c).
Proof. reflexivity. Qed.

Lemma children_with_comments cs : forall e,
  children (foldl dump_comment e cs)
  = children e ++ flat_map (fun c => [comment_element c; comment_data c]) cs.
Proof.
  induction cs as [|c cs IH]; intros e; cbn [foldl flat_map].
  - by rewrite app_nil_r.
  - rewrite IH, dump_comment_parts. cbn [SubElement children].
    by rewrite <- !app_assoc.
Qed.

Lemma children_post_entry dep a post :
  children (post_entry dep a post)
  = entry_head dep a post
    ++ flat_map (fun c => [comment_element c; comment_data c]) (comments post).
Proof.
  unfold post_entry. cbv zeta. rewrite children_with_comments, children_appended.
  reflexivity.
Qed.

Lemma qname_atom_not_textpress a b : qname ATOM_NS a <> qname TEXTPRESS_NS b.
Proof. intros H. symmetry in H. by apply qname_textpress_not_atom in H. Qed.

Lemma qname_ne ns a b : a <> b -> qname ns a <> qname ns b.
Proof. intros Hne H. by apply qname_inj in H. Qed.

(** Deciding the tag of the next child of a list under [filter]. *)
Ltac next_child :=
  first
    [ rewrite filter_cons_True
        by (rewrite ?tag_appended; reflexivity)
    | rewrite filter_cons_False
        by (rewrite ?tag_appended; cbn [tag set_attrib atom tp helper];
            first [ apply qname_atom_not_textpress
                  | apply qname_textpress_not_atom
                  | apply qname_ne; discriminate ]) ].

Lemma comment_parts_tagged t (cs : list Comment) :
  filter (fun c => tag c = t)
         (flat_map (fun c => [comment_element c; comment_data c]) cs)
  = if decide (t = qname TEXTPRESS_NS "comment") then comment_element <$> cs
    else if decide (t = qname TEXTPRESS_NS "data") then comment_data <$> cs
    else [].
Proof.
  induction cs as [|c cs IH]; cbn [flat_map List.app].
  - by repeat case_decide.
  - assert (tag (comment_element c) = qname TEXTPRESS_NS "comment") as Hc
      by (unfold comment_element; by rewrite tag_appended).
    assert (tag (comment_data c) = qname TEXTPRESS_NS "data") as Hd by reflexivity.
    assert (qname TEXTPRESS_NS "data" <> qname TEXTPRESS_NS "comment") as Hne
      by (apply qname_ne; discriminate).
    repeat case_decide; subst.
    + rewrite filter_cons_True by done. rewrite filter_cons_False by congruence.
      by rewrite IH.
    + rewrite filter_cons_False by congruence. rewrite filter_cons_True by done.
      by rewrite IH.
    + rewrite !filter_cons_False by congruence. exact IH.
Qed.

(** The comments of a post in its entry: the entry has one [comment]
    child for each comment, in their order, and the pickled [data] of each
    comment is a child of the entry as well, next to the post's own, not a
    child of the comment. *)
Theorem entry_comments_and_data (dep : string) (a : User) (post : Post) :
  children_tagged (qname TEXTPRESS_NS "comment") (post_entry dep a post)
  = comment_element <$> comments post
  /\ children_tagged (qname TEXTPRESS_NS "data") (post_entry dep a post)
     = tp "data" ∅ ∅ (Some (post_data post)) :: (comment_data <$> comments post)
  /\ (forall c, children_tagged (qname TEXTPRESS_NS "data") (comment_element c) = []).
Proof.
  unfold children_tagged. rewrite children_post_entry, !filter_app.
  rewrite !comment_parts_tagged. split; [|split].
  - rewrite decide_True by done. unfold entry_head.
    destruct (intro post); cbn [List.app]; repeat next_child; by rewrite filter_nil.
  - rewrite decide_False by (apply qname_ne; discriminate).
    rewrite decide_True by done. unfold entry_head.
    destruct (intro post); cbn [List.app]; repeat next_child; by rewrite filter_nil.
  - intros c. unfold comment_element. rewrite children_appended. cbn [List.app tp helper children].
    repeat next_child. by rewrite filter_nil.
Qed.

(** An entry has a [summary] child exactly when the post has an intro,
    and it holds the rendered intro. *)
Theorem entry_summary (dep : string) (a : User) (post : Post) :
  children_tagged (qname ATOM_NS "summary") (post_entry dep a post)
  = match intro post with
    | Some i => [ atom "summary" ∅ {[ "type" := "html" ]} (Some (render i)) ]
    | None => []
    end.
Proof.
  unfold children_tagged. rewrite children_post_entry, !filter_app.
  rewrite comment_parts_tagged.
  rewrite decide_False by apply qname_atom_not_textpress.
  rewrite decide_False by apply qname_atom_not_textpress.
  unfold entry_head.
  destruct (intro post); cbn [List.app]; repeat next_child;
    by rewrite filter_nil, ?app_nil_r.
Qed.

Lemma author_dependency_post_entry dep a post :
  author_dependency (post_entry dep a post) = Some dep.
Proof.
  unfold author_dependency, children_tagged.
  rewrite children_post_entry, !filter_app. unfold entry_head.
  assert (forall cs e, attrib (foldl SubElement e cs) = attrib e) as Hattr
    by (induction cs as [|c cs IH]; intros e; simpl; [done|]; by rewrite IH).
  destruct (intro post); cbn [List.app]; do 6 next_child; cbn [List.app head];
    change (Some ?x ≫= ?f) with (f x); cbv beta;
    rewrite Hattr; cbn [set_attrib attrib]; by rewrite lookup_insert_eq.
Qed.

(** ** References from entries to users *)

Lemma users_indexed_step w us user :
  registered w us -> users_indexed w us ->
  users_indexed (_register_user w user) (us ++ [user]).
Proof.
  intros Hreg Hidx uid ref.
  assert (length (nodes w) = length us) as Hlen.
  { rewrite (reg_nodes _ _ Hreg). by rewrite length_imap. }
  rewrite register_user_plain by apply Hreg. cbn [users]. rewrite Hlen.
  destruct (decide (user_id user = uid)) as [<-|Hne].
  - rewrite lookup_insert_eq. intros [= <-]. exists user.
    split; [|done]. by rewrite list_lookup_middle.
  - rewrite lookup_insert_ne by done. intros Href.
    destruct (Hidx _ _ Href) as (u & Hu & Hid). exists u.
    split; [|done]. by apply lookup_app_l_Some.
Qed.

Lemma users_indexed_all us : forall w us0,
  registered w us0 -> users_indexed w us0 ->
  users_indexed (foldl _register_user w us) (us0 ++ us).
Proof.
  induction us as [|u us IH]; intros w us0 Hreg Hidx; simpl.
  - by rewrite app_nil_r.
  - replace (us0 ++ u :: us) with ((us0 ++ [u]) ++ us)
      by (by rewrite <- app_assoc).
    apply IH; [by apply registered_step|by apply users_indexed_step].
Qed.

Lemma dump_post_reference w db post a :
  registered w (db_users db) -> users_indexed w (db_users db) ->
  NoDup (user_id <$> db_users db) ->
  author db post = Some a ->
  exists i, db_users db !! i = Some a
            /\ _dump_post w db post = inr (post_entry (hex (S i)) a post).
Proof.
  intros Hreg Hidx Hnd Ha. unfold _dump_post. rewrite Ha.
  pose proof (author_is_user _ _ _ Ha) as Hin.
  destruct (reg_users _ _ Hreg a Hin) as (ref & Href & Hlt).
  destruct (Hidx _ _ Href) as (u & Hu & Hid).
  apply list_elem_of_lookup in Hin as [j Hj].
  assert (ref = j) as ->.
  { eapply NoDup_lookup; [exact Hnd|..].
    - rewrite list_lookup_fmap, Hu. simpl. by rewrite Hid.
    - by rewrite list_lookup_fmap, Hj. }
  exists j. split; [done|].
  rewrite Href, (reg_nodes _ _ Hreg), list_lookup_imap, Hj.
  cbn [fmap option_fmap option_map mbind option_bind].
  rewrite user_node_dependency, (reg_participants _ _ Hreg). done.
Qed.

Lemma dump_posts_references w db ps :
  registered w (db_users db) -> users_indexed w (db_users db) ->
  NoDup (user_id <$> db_users db) ->
  Forall (fun p => is_Some (author db p)) ps ->
  exists es, dump_posts w db ps = {| yielded := Dump <$> es; raised := None |}
             /\ Forall2 (fun p e => exists i a,
                           db_users db !! i = Some a /\ author db p = Some a
                           /\ e = post_entry (hex (S i)) a p) ps es.
Proof.
  intros Hreg Hidx Hnd. induction ps as [|p ps IH]; intros Hall; simpl.
  - exists []. split; [done|]. constructor.
  - inversion Hall as [|? ? [a Ha] Hrest]; subst.
    destruct (dump_post_reference w db p a Hreg Hidx Hnd Ha) as (i & Hi & Hdump).
    destruct (IH Hrest) as (es & Hes & Hentries).
    rewrite Hdump, Hes. simpl. exists (post_entry (hex (S i)) a p :: es).
    split; [done|]. constructor; eauto.
Qed.

(** Every reference resolves: with user ids that are unique, the entry of
    a post carries on its [author] child the dependency id of the node of
    that very author, and that node is in the dependency block. *)
Theorem export_author_references (a : App) (now : Z) (db : Db) :
  authors_present db ->
  NoDup (user_id <$> db_users db) ->
  let r := _generate (Writer_init a []) now db in
  forall p, p ∈ db_posts db ->
    exists entry id au,
      entry ∈ entry_fragments (yielded r)
      /\ author db p = Some au
      /\ entry = post_entry id au p
      /\ author_dependency entry = Some id
      /\ user_node id au ∈ dependency_block (yielded r)
      /\ attrib (user_node id au) !! tp_dependency = Some id.
Proof.
  intros Hauthors Hnd r p Hp. subst r.
  set (w := foldl _register_user (Writer_init a []) (all_users db)).
  assert (registered w (db_users db)) as Hreg.
  { apply (registered_all (db_users db) _ []), registered_init. }
  assert (users_indexed w (db_users db)) as Hidx.
  { apply (users_indexed_all (db_users db) _ []); [apply registered_init|].
    intros uid ref H. unfold Writer_init in H. cbn [users] in H.
    by rewrite lookup_empty in H. }
  assert (Forall (fun p => is_Some (author db p)) (order_by_last_update_desc db))
    as Hall.
  { rewrite order_by_permutation. exact Hauthors. }
  destruct (dump_posts_references w db _ Hreg Hidx Hnd Hall) as (es & Hes & Hentries).
  assert (_generate (Writer_init a []) now db
          = {| yielded := [Raw (preamble a (feed_updated now db))] ++ (Dump <$> es)
                          ++ dump_dependencies w ++ [Raw XML_EPILOG];
               raised := None |}) as Hrun.
  { unfold _generate. cbn [participants Writer_init setup_all].
    fold w. rewrite Hes. reflexivity. }
  rewrite Hrun. cbn [yielded].
  rewrite entry_fragments_of_run by (apply preamble_not_marker; by left).
  rewrite dependency_block_of_run by (apply preamble_not_marker; by left).
  rewrite <- order_by_permutation in Hp.
  apply list_elem_of_lookup in Hp as [k Hk].
  destruct (Forall2_lookup_l _ _ _ _ _ Hentries Hk) as (e & He & i & au & Hi & Hau & ->).
  exists (post_entry (hex (S i)) au p), (hex (S i)), au.
  split; [by eapply list_elem_of_lookup_2|]. split; [done|]. split; [done|].
  split; [apply author_dependency_post_entry|].
  split; [|apply user_node_dependency].
  case_bool_decide as Hempty.
  - apply (dependencies_empty_registered _ _ Hreg) in Hempty.
    rewrite Hempty in Hi. by rewrite lookup_nil in Hi.
  - rewrite (dependency_nodes_registered _ _ Hreg).
    apply elem_of_lookup_imap. eauto.
Qed.

(** ** Participants *)


(** ** The output buffer *)

Lemma writes_collected (out : MinimalO) (ws : list string) :
  forall (heap : gmap nat (list string)) l,
    heap !! write out = Some l ->
    foldl (fun h s => out_write out s h) heap ws = <[write out := l ++ ws]> heap.
Proof.
  induction ws as [|s ws IH]; intros heap l Hl; simpl.
  - rewrite app_nil_r. by rewrite insert_id.
  - rewrite (IH _ (l ++ [s])).
    + unfold out_write. rewrite <- app_assoc. simpl.
      apply map_eq. intros j. destruct (decide (write out = j)) as [<-|Hne].
      * by rewrite !lookup_insert_eq.
      * rewrite !lookup_insert_ne by done. by rewrite lookup_alter_ne.
    + unfold out_write. rewrite lookup_alter_eq, Hl. done.
Qed.

(** [dump_node] through one [_MinimalO]: whatever the heap was when the
    object was made, each call returns the concatenation of what was
    written during that call and nothing of the calls before, and the
    buffer is empty again afterwards. *)
Theorem dump_all_isolated (heap : gmap nat (list string))
    (nodes_writes : list (list string)) :
  let out := (MinimalO_init heap).1 in
  let heap0 := (MinimalO_init heap).2 in
  dump_all out nodes_writes heap0 = (join <$> nodes_writes, heap0)
  /\ heap0 !! _buffer out = Some []
  /\ (forall ref, ref <> _buffer out -> heap0 !! ref = heap !! ref).
Proof.
  intros out heap0. subst out heap0. unfold MinimalO_init.
  cbn [fst snd _buffer]. set (ref := fresh (dom heap)).
  split; [|split].
  - induction nodes_writes as [|ws rest IH]; [done|].
    cbn [dump_all]. unfold dump_through, _get_and_clean.
    rewrite (writes_collected _ ws _ []) by (cbn [write]; by rewrite lookup_insert_eq).
    cbn [write _buffer]. rewrite lookup_insert_eq, !insert_insert_eq.
    cbn [default List.app]. rewrite IH. done.
  - by rewrite lookup_insert_eq.
  - intros r Hr. by rewrite lookup_insert_ne.
Qed.

End TpxaMore.

(** * The further properties on concrete data *)

Section MoreOnConcreteData.
Import Database Tpxa.

Lemma instrument_class_succeeds_iff_witness :
  own_managers (class_ own_manager_model) <> []
  /\ (instrument_class own_manager_model).2 = inr tt.
Proof.
  assert (own_managers (class_ own_manager_model) = [3]) as Hown
    by (vm_compute; reflexivity).
  assert (own_managers (class_ own_manager_model) <> []) as H
    by (rewrite Hown; discriminate).
  split; [exact H|].
  apply (instrument_class_succeeds_iff own_manager_model H). rewrite Hown. split.
  - apply NoDup_singleton.
  - constructor; [|constructor]. vm_compute. reflexivity.
Defined.

Lemma instrument_class_twice_witness :
  (instrument_class own_manager_model).2 = inr tt
  /\ cls_dict (class_ own_manager_model) !! "_tp_managers" ≫= is_manager = None
  /\ (instrument_class (instrument_class own_manager_model).1).2
     = inl already_bound_error.
Proof.
  assert ((instrument_class own_manager_model).2 = inr tt) as H1
    by (vm_compute; reflexivity).
  assert (cls_dict (class_ own_manager_model) !! "_tp_managers" ≫= is_manager = None)
    as H2 by (vm_compute; reflexivity).
  split; [exact H1|]. split; [exact H2|].
  exact (instrument_class_twice own_manager_model H1 H2).
Defined.

(** [db.delete] is the session's although the library exports a [delete]
    too, [db.mapper] is the module's own, and private names stay out. *)
Example db_of_sample_libraries :
  db_namespace (fill_db sample_sqlalchemy sample_orm) !! "delete"
  = Some (SessionAttr "delete")
  /\ db_namespace (fill_db sample_sqlalchemy sample_orm) !! "mapper"
     = Some (Own "mapper")
  /\ db_namespace (fill_db sample_sqlalchemy sample_orm) !! "select"
     = Some (FromLibrary 2)
  /\ db_namespace (fill_db sample_sqlalchemy sample_orm) !! "_private" = None
  /\ db_all sample_sqlalchemy sample_orm
     = [ "DatabaseManager"; "begin"; "clear"; "commit"; "delete"; "execute";
         "expire"; "flush"; "get_engine"; "mapper"; "refresh"; "relation";
         "rollback"; "save"; "select"; "session" ].
Proof. repeat split; vm_compute; reflexivity. Qed.

Lemma export_stops_at_orphan_witness :
  order_by_last_update_desc broken_db = [hello] ++ orphan :: []
  /\ Forall (fun q => is_Some (author broken_db q)) [hello]
  /\ author broken_db orphan = None
  /\ raised (_generate (host := plain_host) (Writer_init blog []) 7 broken_db)
     = Some (AttributeError "'NoneType' object has no attribute 'user_id'").
Proof.
  assert (order_by_last_update_desc broken_db = [hello] ++ orphan :: []) as H1
    by (vm_compute; reflexivity).
  assert (Forall (fun q => is_Some (author broken_db q)) [hello]) as H2.
  { repeat constructor. eexists. vm_compute. reflexivity. }
  assert (author broken_db orphan = None) as H3 by (vm_compute; reflexivity).
  split; [exact H1|]. split; [exact H2|]. split; [exact H3|].
  destruct (@export_stops_at_orphan plain_host blog 7 broken_db [hello] orphan []
              H1 H2 H3) as (es & Hrun & _).
  rewrite Hrun. reflexivity.
Defined.

Lemma export_author_references_witness :
  authors_present small_db
  /\ NoDup (user_id <$> db_users small_db)
  /\ hello ∈ db_posts small_db
  /\ exists entry id,
       entry ∈ entry_fragments
         (yielded (_generate (host := plain_host) (Writer_init blog []) 7 small_db))
       /\ author_dependency entry = Some id
       /\ user_node (host := plain_host) id alice
          ∈ dependency_block
              (yielded (_generate (host := plain_host) (Writer_init blog []) 7 small_db)).
Proof.
  assert (authors_present small_db) as H1.
  { repeat constructor. eexists. vm_compute. reflexivity. }
  assert (NoDup (user_id <$> db_users small_db)) as H2.
  { apply (NoDup_cons_2 1%Z [2%Z]); [|apply NoDup_singleton].
    intros Hin. apply list_elem_of_singleton in Hin. discriminate. }
  assert (hello ∈ db_posts small_db) as H3 by constructor.
  split; [exact H1|]. split; [exact H2|]. split; [exact H3|].
  destruct (@export_author_references plain_host blog 7 small_db H1 H2 hello H3)
    as (entry & id & au & Hentry & Hau & _ & Hdep & Hnode & _).
  assert (author small_db hello = Some alice) as Ha by (vm_compute; reflexivity).
  rewrite Ha in Hau. injection Hau as <-.
  exists entry, id. split; [exact Hentry|]. split; [exact Hdep|exact Hnode].
Defined.


End MoreOnConcreteData.
